(** * Ouro: signal classifier and risk-managed trading loop

    A shallow embedding of [ouro_lib.calcind] (the vote columns and the
    [STRATEGY_ID] encoding) and of the trading loop of [ouro_trader.py]
    (account snapshot, per-stock sizing and pricing, bought/skip
    bookkeeping, the two files rewritten at the end of each pass).

    Numbers.  Python floats are modelled by the rationals they stand
    for: arithmetic is exact in [Q], comparisons are the comparisons of
    [Q], and a NaN cell of a pandas column is [None].  Rounding of
    binary64 arithmetic is outside this model.  The range of a
    binary64 matters where it decides whether an exception is raised:
    [Checked] adds the OverflowError of the conversion to [int] in the
    loop body.  Frames are lists of rows; [Indexed] adds the index
    labels, on which the loop that writes [STRATEGY_ID] depends. *)

From Stdlib Require Import QArith Lqa Ascii String.
From stdpp Require Import gmap strings list relations.

Open Scope Z_scope.

(** ** Python results: a value or a raised exception *)

Inductive exn :=
| TypeError | KeyError | ValueError | ZeroDivisionError | OverflowError.

Inductive result (A : Type) : Type :=
| Ok (a : A)
| Raise (e : exn).
Arguments Ok {A} a.
Arguments Raise {A} e.

#[global] Instance result_ret : MRet result := λ A a, Ok a.
#[global] Instance result_bind : MBind result := λ A B f m,
  match m with
  | Ok a => f a
  | Raise e => Raise e
  end.

(** ** Float comparisons and conversions *)

Definition Qlt_bool (x y : Q) : bool := negb (Qle_bool y x).

(** [x / y] on floats: raises on a zero divisor. *)
Definition fdiv (x y : Q) : result Q :=
  if Qeq_bool y 0 then Raise ZeroDivisionError else Ok (x / y)%Q.

(** [int(x)] on a float: truncation toward zero. *)
Definition int_of_float (x : Q) : Z := Z.quot (Qnum x) (Z.pos (Qden x)).

(** [chr(n)].  Code points 0..255 are the characters of [ascii]; the
    call raises [ValueError] for a negative argument, and code points
    from 256 on have no [ascii] counterpart, so they fail here too. *)
Definition chr (n : Z) : result string :=
  if (0 <=? n) && (n <? 256)
  then Ok (String (ascii_of_N (Z.to_N n)) EmptyString)
  else Raise ValueError.

(** [ord(c)]. *)
Definition ord (c : ascii) : Z := Z.of_N (N_of_ascii c).

(** ** ouro_lib.calcind: votes and strategy identifier *)

Module Classifier.

(** A cell of a float column; [None] is NaN. *)
Definition cell := option Q.

(** Elementwise comparisons of pandas: anything compared with NaN is False. *)
Definition cmp (op : Q → Q → bool) (a b : cell) : bool :=
  match a, b with
  | Some x, Some y => op x y
  | _, _ => false
  end.
Definition lt : cell → cell → bool := cmp Qlt_bool.
Definition gt (a b : cell) : bool := lt b a.
Definition le : cell → cell → bool := cmp Qle_bool.
Definition ge (a b : cell) : bool := le b a.
Definition eq : cell → cell → bool := cmp Qeq_bool.

(** Elementwise subtraction: NaN propagates. *)
Definition sub (a b : cell) : cell :=
  match a, b with
  | Some x, Some y => Some (x - y)%Q
  | _, _ => None
  end.

Definition num (q : Q) : cell := Some q.

(** The indicator columns of one row that the votes read (the output of
    the ta-lib calls, which are not part of this model). *)
Record bar := {
  AROONUP : cell; AROONDN : cell; BOP : cell; CCI14 : cell; CMO14 : cell;
  MACDHIST : cell; PPO12 : cell; RSI14 : cell;
  STOCHK : cell; STOCHD : cell; STOCHRSIK : cell; STOCHRSID : cell;
  TRIX30 : cell; ADOSC : cell
}.

(** [df[c] = v]: a constant column. *)
Definition const_col (df : list bar) (v : Z) : list Z := (λ _, v) <$> df.

(** [df.loc[mask, c] = v]. *)
Definition loc_assign (mask : list bool) (v : Z) (col : list Z) : list Z :=
  zip_with (λ (m : bool) old, if m then v else old) mask col.

(** [s.shift(periods=-1)]: row i receives the value of row i+1, the
    last row receives NaN. *)
Definition shift_m1 (s : list cell) : list cell :=
  match s with
  | [] => []
  | _ :: t => t ++ [None]
  end.

Definition AROONOSC (r : bar) : cell := sub (AROONDN r) (AROONUP r).

Definition AROONVOTE_col (df : list bar) : list Z :=
  let col := const_col df 0 in
  let col := loc_assign ((λ r, ge (AROONOSC r) (num 25)) <$> df) 1 col in
  let col := loc_assign ((λ r, le (AROONOSC r) (num (-25))) <$> df) (-1) col in
  col.

Definition BOPVOTE_col (df : list bar) : list Z :=
  let col := const_col df 0 in
  let col := loc_assign ((λ r, gt (BOP r) (num 0)) <$> df) 1 col in
  let col := loc_assign ((λ r, lt (BOP r) (num 0)) <$> df) (-1) col in
  col.

Definition CCIVOTE_col (df : list bar) : list Z :=
  let col := const_col df 0 in
  let col := loc_assign ((λ r, ge (CCI14 r) (num 100)) <$> df) 1 col in
  let col := loc_assign ((λ r, le (CCI14 r) (num (-100))) <$> df) (-1) col in
  col.

Definition CMOVOTE_col (df : list bar) : list Z :=
  let col := const_col df 0 in
  let col := loc_assign ((λ r, lt (CMO14 r) (num (-50))) <$> df) 1 col in
  let col := loc_assign ((λ r, gt (CMO14 r) (num 50)) <$> df) (-1) col in
  col.

Definition MACDVOTE_col (df : list bar) : list Z :=
  let hist := MACDHIST <$> df in
  let col := const_col df 0 in
  let col := loc_assign
    (zip_with andb ((λ h, gt h (num 0)) <$> hist)
                   (zip_with lt (shift_m1 hist) hist)) 1 col in
  let col := loc_assign
    (zip_with andb ((λ h, lt h (num 0)) <$> hist)
                   (zip_with gt (shift_m1 hist) hist)) (-1) col in
  let col := loc_assign ((λ h, eq h (num 0)) <$> hist) 0 col in
  col.

Definition PPOVOTE_col (df : list bar) : list Z := const_col df 0.

Definition RSIVOTE_col (df : list bar) : list Z :=
  let col := const_col df 0 in
  let col := loc_assign ((λ r, ge (RSI14 r) (num 70)) <$> df) (-1) col in
  let col := loc_assign ((λ r, le (RSI14 r) (num 30)) <$> df) 1 col in
  col.

Definition STOCHVOTE_col (df : list bar) : list Z :=
  let col := const_col df 0 in
  let col := loc_assign
    ((λ r, ge (STOCHK r) (num 80) && ge (STOCHD r) (num 80)) <$> df) (-1) col in
  let col := loc_assign
    ((λ r, le (STOCHK r) (num 20) && le (STOCHD r) (num 20)) <$> df) 1 col in
  col.

Definition STOCHRSIVOTE_col (df : list bar) : list Z :=
  let col := const_col df 0 in
  let col := loc_assign
    ((λ r, ge (STOCHRSIK r) (num 80) && ge (STOCHRSID r) (num 80)) <$> df) (-1) col in
  let col := loc_assign
    ((λ r, le (STOCHRSIK r) (num 20) && le (STOCHRSID r) (num 20)) <$> df) 1 col in
  col.

Definition TRIXVOTE_col (df : list bar) : list Z :=
  let col := const_col df 0 in
  let col := loc_assign ((λ r, gt (TRIX30 r) (num 0)) <$> df) 1 col in
  let col := loc_assign ((λ r, lt (TRIX30 r) (num 0)) <$> df) (-1) col in
  col.

Definition ADOSCVOTE_col (df : list bar) : list Z :=
  let col := const_col df 0 in
  let col := loc_assign ((λ r, gt (ADOSC r) (num 0)) <$> df) 1 col in
  let col := loc_assign ((λ r, lt (ADOSC r) (num 0)) <$> df) (-1) col in
  col.

(** A row of the frame once the vote columns exist. *)
Record voted := {
  ind : bar;
  AROONVOTE : Z; BOPVOTE : Z; CCIVOTE : Z; CMOVOTE : Z; MACDVOTE : Z;
  PPOVOTE : Z; RSIVOTE : Z; STOCHVOTE : Z; STOCHRSIVOTE : Z;
  TRIXVOTE : Z; ADOSCVOTE : Z
}.

Definition with_votes (df : list bar) (i : nat) (r : bar) : voted := {|
  ind := r;
  AROONVOTE := AROONVOTE_col df !!! i;
  BOPVOTE := BOPVOTE_col df !!! i;
  CCIVOTE := CCIVOTE_col df !!! i;
  CMOVOTE := CMOVOTE_col df !!! i;
  MACDVOTE := MACDVOTE_col df !!! i;
  PPOVOTE := PPOVOTE_col df !!! i;
  RSIVOTE := RSIVOTE_col df !!! i;
  STOCHVOTE := STOCHVOTE_col df !!! i;
  STOCHRSIVOTE := STOCHRSIVOTE_col df !!! i;
  TRIXVOTE := TRIXVOTE_col df !!! i;
  ADOSCVOTE := ADOSCVOTE_col df !!! i
|}.

(** The columns named in [df.dropna(subset=...)]; TRIX30 is not among them. *)
Definition dropna_subset (r : bar) : list cell :=
  [AROONUP r; AROONDN r; BOP r; CCI14 r; CMO14 r; MACDHIST r; PPO12 r;
   RSI14 r; STOCHK r; STOCHD r; STOCHRSIK r; STOCHRSID r; ADOSC r].

Definition notna (r : bar) : Prop := Forall is_Some (dropna_subset r).

#[global] Instance notna_dec r : Decision (notna r) :=
  Forall_dec is_Some (dropna_subset r).

Definition dropna (rows : list voted) : list voted :=
  filter (λ v, notna (ind v)) rows.

(** The eleven characters [a + b + ... + k] of one row. *)
Definition strategy_id (v : voted) : result string :=
  a ← chr (66 + AROONVOTE v);
  b ← chr (66 + BOPVOTE v);
  c ← chr (66 + CCIVOTE v);
  d ← chr (66 + CMOVOTE v);
  e ← chr (66 + MACDVOTE v);
  f ← chr (66 + PPOVOTE v);
  g ← chr (66 + RSIVOTE v);
  h ← chr (66 + STOCHVOTE v);
  i ← chr (66 + STOCHRSIVOTE v);
  j ← chr (66 + TRIXVOTE v);
  k ← chr (66 + ADOSCVOTE v);
  Ok (a +:+ b +:+ c +:+ d +:+ e +:+ f +:+ g +:+ h +:+ i +:+ j +:+ k).

Record classified := { votes : voted; STRATEGY_ID : string }.

Definition set_strategy_id (v : voted) : result classified :=
  s ← strategy_id v; Ok {| votes := v; STRATEGY_ID := s |}.

(** [calcind(df)] after the ta-lib columns are in place.  An empty
    frame falls through the [if] and the function returns [None].
    The rows are taken by position, which is what the loop of lines
    242-255 does when no index label is repeated; [Indexed.calcind]
    takes the frame with its index. *)
Definition calcind (df : list bar) : result (option (list classified)) :=
  match df with
  | [] => Ok None
  | _ =>
      let rows := imap (with_votes df) df in
      let rows := dropna rows in
      out ← mapM set_strategy_id rows;
      Ok (Some out)
  end.

(** Modelled from the spec: [decode] is not in the repository; the spec
    gives it as the inverse of the character map, 'A' = -1, 'B' = 0,
    'C' = +1 at each position. *)
Fixpoint decode (s : string) : list Z :=
  match s with
  | EmptyString => []
  | String c rest => (ord c - 66) :: decode rest
  end.

(** The vote vector of a row in the fixed family order. *)
Definition vote_vector (v : voted) : list Z :=
  [AROONVOTE v; BOPVOTE v; CCIVOTE v; CMOVOTE v; MACDVOTE v; PPOVOTE v;
   RSIVOTE v; STOCHVOTE v; STOCHRSIVOTE v; TRIXVOTE v; ADOSCVOTE v].

End Classifier.

(** ** ouro_trader.py: the trading loop *)

Module Trader.

(** Float comparisons as the source writes them. *)
Definition fgt (x y : Q) : bool := Qlt_bool y x.
Definition fge (x y : Q) : bool := Qle_bool y x.
Definition fle (x y : Q) : bool := Qle_bool x y.

(** The fields of the broker's account object that the script can read. *)
Record account := { buying_power : Q; multiplier : Q; account_cash : Q }.

(** One entry of broker-actions.json; every key the loop reads is
    present and holds a finite number (an absent key, NaN and inf are
    outside this record). *)
Record action := {
  price : Q; recenthigh : Q; recentlow : Q; strategyfamily : string
}.

(** Tables loaded once before the loop. *)
Record env := {
  familyreturns : gmap string Q;
  closeprices : gmap string Q
}.

(** One entry of the [status] dict. *)
Record row := {
  DateTime : string; Ticker : string; Cash : Q; TradeCapital : Q;
  BuyPrice : Q; BuyLimit : Q; MaxRiskAmt : Q; TradeRiskAmt : Q;
  TradeRiskPct : Q; PortfolioRiskPct : Q; FamilyReturnPct : Q;
  TradeReturnPct : Q; OrderShares : Z; RecentHigh : Q; RecentLow : Q;
  FloorPrice : Q; CeilingPrice : Q; Decision : string; Reason : string
}.

(** The arguments of one [alpaca.submit_order] call that vary (side,
    type, time in force and order class are constants). *)
Record order := {
  symbol : string; limit_price : Q; qty : Z; take_profit : Q; stop_loss : Q
}.

(** What the broker answers while one stock is handled: the number of
    held positions ([GetOrderCount]) and whether [submit_order] returns
    or raises. *)
Record broker := { positions : Z; accepts : bool }.

(** Values handed to the two output files. *)
Inductive pyvalue :=
| BuySkipDict (buy skip : list string)
| StatusDict (st : gmap string row).

Inductive file :=
| EmptyFile
| JsonDumps (v : pyvalue)
| CsvDump (fieldnames : list string) (st : gmap string row).

(** The module-level variables of the script, with the calls made to
    [submit_order] and the contents of the two files. *)
Record session := {
  cash : Q;
  tradecapital : Q;
  boughtlist : list string;
  skiplist : list string;
  status : gmap string row;
  orders : list order;
  buyskipfile : file;
  statusfile : file
}.

Definition append_bought (stock : string) (s : session) : session :=
  {| cash := cash s; tradecapital := tradecapital s;
     boughtlist := boughtlist s ++ [stock]; skiplist := skiplist s;
     status := status s; orders := orders s;
     buyskipfile := buyskipfile s; statusfile := statusfile s |}.

Definition append_skip (stock : string) (s : session) : session :=
  {| cash := cash s; tradecapital := tradecapital s;
     boughtlist := boughtlist s; skiplist := skiplist s ++ [stock];
     status := status s; orders := orders s;
     buyskipfile := buyskipfile s; statusfile := statusfile s |}.

Definition set_status (stock : string) (r : row) (s : session) : session :=
  {| cash := cash s; tradecapital := tradecapital s;
     boughtlist := boughtlist s; skiplist := skiplist s;
     status := <[stock := r]> (status s); orders := orders s;
     buyskipfile := buyskipfile s; statusfile := statusfile s |}.

Definition call_submit_order (o : order) (s : session) : session :=
  {| cash := cash s; tradecapital := tradecapital s;
     boughtlist := boughtlist s; skiplist := skiplist s;
     status := status s; orders := orders s ++ [o];
     buyskipfile := buyskipfile s; statusfile := statusfile s |}.

Definition write_buyskipfile (f : file) (s : session) : session :=
  {| cash := cash s; tradecapital := tradecapital s;
     boughtlist := boughtlist s; skiplist := skiplist s;
     status := status s; orders := orders s;
     buyskipfile := f; statusfile := statusfile s |}.

Definition write_statusfile (f : file) (s : session) : session :=
  {| cash := cash s; tradecapital := tradecapital s;
     boughtlist := boughtlist s; skiplist := skiplist s;
     status := status s; orders := orders s;
     buyskipfile := buyskipfile s; statusfile := f |}.

Definition maxriskratio : Q := 0.004.

(** Lines 106-109, after the files and the lists are initialised. *)
Definition session_start (acct : account) : result session :=
  q ← fdiv (buying_power acct) (multiplier acct);
  let cash := (q - 25001)%Q in
  let tradecapital := (cash / 10)%Q in
  Ok {| cash := cash; tradecapital := tradecapital;
        boughtlist := []; skiplist := []; status := ∅; orders := [];
        buyskipfile := EmptyFile; statusfile := EmptyFile |}.

(** The locals of the pricing block when it ends. *)
Record plan := {
  familyret : Q; floorpct : Q; floorprice : Q; ceilingprice : Q;
  traderiskamt : Q; traderiskpct : Q; buylimit : Q; traderet : Q;
  ordershares : Z; skipreason : string
}.

Definition getitem (m : gmap string Q) (k : string) : result Q :=
  match m !! k with
  | Some v => Ok v
  | None => Raise KeyError
  end.

(** [float(closeprices.get(stock))]: [float(None)] raises. *)
Definition float_get (m : gmap string Q) (k : string) : result Q :=
  match m !! k with
  | Some v => Ok v
  | None => Raise TypeError
  end.

(** Lines 180-228: the body of [if ordercount < 10] up to the order. *)
Definition pricing (E : env) (a : action) (yesterdayclose maxriskamt : Q)
    (ordershares : Z) : result plan :=
  let stockprice := price a in
  let skipreason := "Unknown" in
  let family := strategyfamily a in
  fr ← getitem (familyreturns E) family;
  let familyret := (fr * 0.8)%Q in
  let floorpct := (familyret * 0.5)%Q in
  let floorprice := (stockprice * (1 - floorpct))%Q in
  let ceilingprice := (stockprice * (1 + fr))%Q in
  let '(ceilingprice, ordershares, skipreason) :=
    if bool_decide (family ≠ "Candlestick") then
      let ceilingprice :=
        if fgt ceilingprice (recenthigh a)
        then (recenthigh a - 0.05)%Q else ceilingprice in
      if fgt floorprice (recentlow a)
      then (ceilingprice, 0, "Proposed stop-loss price already hit today")
      else (ceilingprice, ordershares, skipreason)
    else (ceilingprice, ordershares, skipreason) in
  let floorprice :=
    if fgt (stockprice * inject_Z ordershares * floorpct)%Q maxriskamt
    then (stockprice - ((ceilingprice - stockprice) * 0.4))%Q
    else floorprice in
  let traderiskamt := ((stockprice - floorprice) * inject_Z ordershares)%Q in
  traderiskpct ← fdiv (stockprice - floorprice)%Q stockprice;
  let buylimit := (((ceilingprice - stockprice) * 0.05) + stockprice)%Q in
  traderet ← fdiv (ceilingprice - buylimit)%Q buylimit;
  change ← fdiv (stockprice - yesterdayclose)%Q yesterdayclose;
  let '(ordershares, skipreason) :=
    if fge change traderet
    then (0, "The potential return has already been met today.")
    else (ordershares, skipreason) in
  let '(ordershares, skipreason) :=
    if fle (traderet - 0.005)%Q traderiskpct
    then (0, "Risk outweighs reward")
    else (ordershares, skipreason) in
  Ok {| familyret := familyret; floorpct := floorpct;
        floorprice := floorprice; ceilingprice := ceilingprice;
        traderiskamt := traderiskamt; traderiskpct := traderiskpct;
        buylimit := buylimit; traderet := traderet;
        ordershares := ordershares; skipreason := skipreason |}.

Definition bandwagondiscount (inboundcount : Z) : Q :=
  if 10 <=? inboundcount then 0.3%Q else 1%Q.

Definition maxriskamt (inboundcount : Z) (s : session) : Q :=
  (cash s * maxriskratio * bandwagondiscount inboundcount)%Q.

(** The dict stored in [status[stock]]; the three places that build it
    differ in [Decision] and [Reason] only. *)
Definition status_row (logtime stock : string) (a : action) (maxriskamt : Q)
    (p : plan) (decision reason : string) (s : session) : result row :=
  prp ← fdiv (traderiskamt p) (cash s);
  Ok {| DateTime := logtime; Ticker := stock; Cash := cash s;
        TradeCapital := tradecapital s; BuyPrice := price a;
        BuyLimit := buylimit p; MaxRiskAmt := maxriskamt;
        TradeRiskAmt := traderiskamt p; TradeRiskPct := traderiskpct p;
        PortfolioRiskPct := prp; FamilyReturnPct := familyret p;
        TradeReturnPct := traderet p; OrderShares := ordershares p;
        RecentHigh := recenthigh a; RecentLow := recentlow a;
        FloorPrice := floorprice p; CeilingPrice := ceilingprice p;
        Decision := decision; Reason := reason |}.

(** Lines 306-312: a reason for a skip that has none yet. *)
Definition default_skipreason (stock : string) (ordercount : Z) (p : plan)
    (s : session) : string :=
  let skipreason := skipreason p in
  let skipreason :=
    if (ordershares p =? 0) && bool_decide (skipreason = "Unknown")
    then "Stock is too expensive or unable to buy shares." else skipreason in
  let skipreason :=
    if bool_decide (stock ∈ boughtlist s) && bool_decide (skipreason = "Unknown")
    then "Stock in bought list." else skipreason in
  let skipreason :=
    if (10 <=? ordercount) && bool_decide (skipreason = "Unknown")
    then "Too many existing positions" else skipreason in
  skipreason.

(** Lines 230-338: place the order, or skip. *)
Definition place_or_skip (logtime stock : string) (a : action) (b : broker)
    (maxriskamt : Q) (ordercount : Z) (p : plan) (s : session) : result session :=
  if 0 <? ordershares p then
    let s := call_submit_order
      {| symbol := stock; limit_price := buylimit p; qty := ordershares p;
         take_profit := ceilingprice p; stop_loss := floorprice p |} s in
    if accepts b then
      let s := append_bought stock s in
      r ← status_row logtime stock a maxriskamt p "buy" (strategyfamily a) s;
      Ok (set_status stock r s)
    else
      if bool_decide (stock ∉ skiplist s) then
        r ← status_row logtime stock a maxriskamt p "skip"
              (skipreason p +:+ " - buy order failed; eligible for retry.") s;
        Ok (set_status stock r s)
      else Ok s
  else
    let skipreason := default_skipreason stock ordercount p s in
    if bool_decide (stock ∉ skiplist s) then
      let s := append_skip stock s in
      r ← status_row logtime stock a maxriskamt p "skip"
            (skipreason +:+ "; not eligible for retry.") s;
      Ok (set_status stock r s)
    else Ok s.

(** Lines 151-228 for a stock that is evaluated: the conversions, the
    share count and the pricing block. *)
Definition risk_engine (E : env) (inboundcount : Z) (stock : string)
    (a : action) (s : session) : result plan :=
  yesterdayclose ← float_get (closeprices E) stock;
  q ← fdiv (tradecapital s) (price a);
  pricing E a yesterdayclose (maxriskamt inboundcount s) (int_of_float q).

(** Lines 139-340: the body of [for stock in inboundactions].  The
    values given to [traderiskamt], [floorprice], [ceilingprice],
    [buylimit], [traderiskpct] and [familyret] at lines 158-177 are
    assigned again inside [if ordercount < 10] before they are read,
    and are read nowhere else; the order count read at the end of the
    body is read again before its next use.  None of them is kept.
    The conversion [int(...)] of line 170 is taken as exact here;
    [Checked.process_stock] adds the OverflowError it raises when the
    quotient leaves the range of a float. *)
Definition process_stock (E : env) (inboundcount : Z) (logtime : string)
    (b : broker) (stock : string) (a : action) (s : session) : result session :=
  if bool_decide ((stock ∉ boughtlist s) ∧ (stock ∉ skiplist s)) then
    yesterdayclose ← float_get (closeprices E) stock;
    let maxriskamt := maxriskamt inboundcount s in
    let ordercount := positions b in
    q ← fdiv (tradecapital s) (price a);
    let ordershares := int_of_float q in
    if ordercount <? 10 then
      p ← pricing E a yesterdayclose maxriskamt ordershares;
      place_or_skip logtime stock a b maxriskamt ordercount p s
    else Ok s
  else Ok s.

(** One pass of the [while] loop reads the action file, the clock for
    the log lines and, per stock, the broker. *)
Record tick_input := {
  inboundactions : list (string * action);
  logtime : string;
  broker_of : string → broker
}.

(** Lines 132-135. *)
Definition inboundcount (inb : list (string * action)) (s : session) : Z :=
  foldl (λ n (kv : string * action),
           if bool_decide ((kv.1 ∉ boughtlist s) ∧ (kv.1 ∉ skiplist s))
           then n + 1 else n) 0 inb.

(** Lines 138-343. *)
Fixpoint stocks_loop (E : env) (n : Z) (t : tick_input)
    (items : list (string * action)) (s : session) : result session :=
  match items with
  | [] => Ok s
  | (stock, a) :: rest =>
      s' ← process_stock E n (logtime t) (broker_of t stock) stock a s;
      stocks_loop E n t rest s'
  end.

Definition fieldnames : list string :=
  ["DateTime"; "Ticker"; "Cash"; "TradeCapital"; "BuyPrice"; "BuyLimit";
   "MaxRiskAmt"; "TradeRiskAmt"; "TradeRiskPct"; "PortfolioRiskPct";
   "RiskPct"; "FamilyReturnPct"; "TradeReturnPct"; "OrderShares";
   "RecentHigh"; "RecentLow"; "FloorPrice"; "CeilingPrice"; "Decision";
   "Reason"].

(** Lines 348-381, both writes succeeding. *)
Definition write_files (s : session) : session :=
  let tmp := BuySkipDict (boughtlist s) (skiplist s) in
  let tmp := JsonDumps (StatusDict (status s)) in
  let s := write_buyskipfile tmp s in
  write_statusfile (CsvDump fieldnames (status s)) s.

(** One iteration of [while (marketopen and not eod) or cmdline.test]. *)
Definition tick (E : env) (t : tick_input) (s : session) : result session :=
  s' ← stocks_loop E (inboundcount (inboundactions t) s) t (inboundactions t) s;
  Ok (write_files s').

(** A session is a start followed by passes of the loop. *)
Fixpoint run (E : env) (ts : list tick_input) (s : session) : result session :=
  match ts with
  | [] => Ok s
  | t :: rest => s' ← tick E t s; run E rest s'
  end.

(** The steps a session is made of: one stock handled, or the files
    written.  The passes of [tick] are sequences of such steps; the
    bandwagon count of a step is left free. *)
Inductive step (E : env) : session → session → Prop :=
| step_stock n logtime b stock a s s' :
    process_stock E n logtime b stock a s = Ok s' → step E s s'
| step_write s : step E s (write_files s).

(** States a session started from [acct] can be in. *)
Definition reachable (E : env) (s : session) : Prop :=
  ∃ acct s0, session_start acct = Ok s0 ∧ rtc (step E) s0 s.

End Trader.

(** ** Row-wise readings of the vote columns, used to state the facts below *)

Module Readings.
Import Classifier.

(** The three statements of [CCIVOTE] on one cell, in source order. *)
Definition cci_vote (x : cell) : Z :=
  let v := 0 in
  let v := if ge x (num 100) then 1 else v in
  let v := if le x (num (-100)) then -1 else v in
  v.

(** The four statements of [MACDVOTE] on one cell [h] and the cell
    [next] that [shift(periods=-1)] puts beside it. *)
Definition macd_vote (h next : cell) : Z :=
  let v := 0 in
  let v := if gt h (num 0) && lt next h then 1 else v in
  let v := if lt h (num 0) && gt next h then -1 else v in
  let v := if eq h (num 0) then 0 else v in
  v.

(** The histogram of the row after row [i]; NaN when there is none. *)
Definition next_hist (df : list bar) (i : nat) : cell :=
  match df !! S i with
  | Some r => MACDHIST r
  | None => None
  end.

(** The character of a vote: 'A' for -1, 'B' for 0, 'C' for +1. *)
Definition vote_char (x : Z) : ascii :=
  if x =? -1 then "A"%char else if x =? 0 then "B"%char else "C"%char.

Definition is_vote (x : Z) : Prop := x = -1 ∨ x = 0 ∨ x = 1.

(** A frame row whose subset columns are all defined, with the given
    CCI and MACD histogram. *)
Definition sample_bar (cci hist : Q) : bar := {|
  AROONUP := Some 50%Q; AROONDN := Some 50%Q; BOP := Some 0%Q;
  CCI14 := Some cci; CMO14 := Some 0%Q; MACDHIST := Some hist;
  PPO12 := Some 0%Q; RSI14 := Some 50%Q; STOCHK := Some 50%Q;
  STOCHD := Some 50%Q; STOCHRSIK := Some 50%Q; STOCHRSID := Some 50%Q;
  TRIX30 := None; ADOSC := Some 0%Q
|}.

(** The values of one vote column in what [calcind] returns. *)
Definition returned_votes (f : voted → Z)
    (res : result (option (list classified))) : list Z :=
  match res with
  | Ok (Some out) => (λ c, f (votes c)) <$> out
  | _ => []
  end.

(** The CCI cells of the rows that [calcind] returns. *)
Definition returned_cci (res : result (option (list classified))) : list cell :=
  match res with
  | Ok (Some out) => (λ c, CCI14 (ind (votes c))) <$> out
  | _ => []
  end.

(** The record returned for a frame of one row with CCI(14) = -120. *)
Definition low_cci_frame : list bar := [sample_bar (-120) 0].

Definition low_cci_row : classified :=
  {| votes := with_votes low_cci_frame 0 (sample_bar (-120) 0);
     STRATEGY_ID := "BBABBBBBBBB" |}.

Definition abc_votes : voted := {|
  ind := sample_bar 0 0;
  AROONVOTE := -1; BOPVOTE := 0; CCIVOTE := 1; CMOVOTE := -1; MACDVOTE := 0;
  PPOVOTE := 1; RSIVOTE := -1; STOCHVOTE := 0; STOCHRSIVOTE := 1;
  TRIXVOTE := -1; ADOSCVOTE := 0
|}.

End Readings.

(** ** Readings of the trading loop and the sessions used as examples *)

Module Scenario.
Import Trader.

(** The three rejection rules of the pricing block, read off the
    locals it ends with. *)
Definition stoploss_rule (a : action) (p : plan) : bool :=
  bool_decide (strategyfamily a ≠ "Candlestick")
  && fgt (price a * (1 - floorpct p))%Q (recentlow a).

Definition return_rule (a : action) (yesterdayclose : Q) (p : plan) : bool :=
  match fdiv (price a - yesterdayclose)%Q yesterdayclose with
  | Ok change => fge change (traderet p)
  | Raise _ => false
  end.

Definition risk_rule (p : plan) : bool :=
  fle (traderet p - 0.005)%Q (traderiskpct p).

(** The reason of the rule that fired last in source order, or the
    default for a share count of exactly 0, or "Unknown". *)
Definition last_reason (a : action) (yesterdayclose : Q) (p : plan) : string :=
  if risk_rule p then "Risk outweighs reward"
  else if return_rule a yesterdayclose p
  then "The potential return has already been met today."
  else if stoploss_rule a p then "Proposed stop-loss price already hit today"
  else if ordershares p =? 0
  then "Stock is too expensive or unable to buy shares."
  else "Unknown".

(** No ticker is in both lists. *)
Definition exclusive (s : session) : Prop :=
  ∀ x, ¬ (x ∈ boughtlist s ∧ x ∈ skiplist s).

(** Number of times [x] occurs in a list of tickers. *)
Definition occurrences (x : string) (l : list string) : nat :=
  length (filter (λ y, y = x) l).

(** A stock the loop would evaluate: it passes the guard of line 149. *)
Definition eligible (stock : string) (s : session) : Prop :=
  (stock ∉ boughtlist s) ∧ (stock ∉ skiplist s).

(** The state of a finished computation ([d] if it raised). *)
Definition state_of (r : result session) (d : session) : session :=
  match r with
  | Ok s => s
  | Raise _ => d
  end.

Definition plan_of (r : result plan) : plan :=
  match r with
  | Ok p => p
  | Raise _ =>
      {| familyret := 0; floorpct := 0; floorprice := 0; ceilingprice := 0;
         traderiskamt := 0; traderiskpct := 0; buylimit := 0; traderet := 0;
         ordershares := 0; skipreason := "" |}
  end.

Definition empty_session : session :=
  {| cash := 0; tradecapital := 0; boughtlist := []; skiplist := [];
     status := ∅; orders := []; buyskipfile := EmptyFile;
     statusfile := EmptyFile |}.

(** Account with buying power 75001 at multiplier 1: cash 50000 and
    trade capital 5000. *)
Definition acct : account :=
  {| buying_power := 75001; multiplier := 1; account_cash := 61000 |}.

Definition start : session := state_of (session_start acct) empty_session.

Definition tables : env :=
  {| familyreturns := {[ "Momentum" := 0.02%Q ]};
     closeprices := {[ "AAA" := 98%Q; "BBB" := 99.5%Q; "CCC" := 101%Q ]} |}.

(** price 100, recent high 105, recent low 95, family Momentum;
    yesterday's close of AAA is 98. *)
Definition aaa : action :=
  {| price := 100; recenthigh := 105; recentlow := 95;
     strategyfamily := "Momentum" |}.

(** As [aaa] with recent low 99.5 and, for BBB, yesterday's close 99.5:
    no rule fires and 50 shares are bought. *)
Definition bbb : action :=
  {| price := 100; recenthigh := 105; recentlow := 99.5;
     strategyfamily := "Momentum" |}.

(** price 100, recent high 100.5, recent low 99; yesterday's close of
    CCC is 101: the stop-loss rule fires, then the risk rule. *)
Definition ccc : action :=
  {| price := 100; recenthigh := 100.5; recentlow := 99;
     strategyfamily := "Momentum" |}.

Definition now : string := "2020-05-18 10:00:00".

Definition held (n : Z) (ok : bool) : broker :=
  {| positions := n; accepts := ok |}.

(** The locals of the pricing block for AAA with 3 positions held. *)
Definition aaa_plan : result plan := risk_engine tables 1 "AAA" aaa start.

(** AAA handled with [n] positions held. *)
Definition aaa_pass (n : Z) : result session :=
  process_stock tables 1 now (held n true) "AAA" aaa start.

Definition ccc_plan : result plan := risk_engine tables 1 "CCC" ccc start.

Definition ccc_pass : result session :=
  process_stock tables 1 now (held 3 true) "CCC" ccc start.

(** BBB handled with 3 positions held, the broker accepting or not. *)
Definition bbb_pass (ok : bool) : result session :=
  process_stock tables 1 now (held 3 ok) "BBB" bbb start.

(** One pass of the loop over a batch holding BBB alone, the broker
    refusing the order. *)
Definition refused_tick : tick_input :=
  {| inboundactions := [("BBB", bbb)]; logtime := now;
     broker_of := λ _, held 3 false |}.

(** A projection of a result, for statements about its fields. *)
Definition field {A B} (f : A → B) (r : result A) : option B :=
  match r with
  | Ok a => Some (f a)
  | Raise _ => None
  end.

End Scenario.

(** ** Further frames used as examples *)

Module Frames.
Import Classifier Readings.

(** The rows of a finished call ([[]] if it raised or returned [None]). *)
Definition returned (res : result (option (list classified))) : list classified :=
  match res with
  | Ok (Some out) => out
  | _ => []
  end.

(** A row whose CCI is NaN: it is inside the warm-up window. *)
Definition warmup_bar : bar := {|
  AROONUP := Some 50%Q; AROONDN := Some 50%Q; BOP := Some 0%Q;
  CCI14 := None; CMO14 := Some 0%Q; MACDHIST := Some 1%Q;
  PPO12 := Some 0%Q; RSI14 := Some 50%Q; STOCHK := Some 50%Q;
  STOCHD := Some 50%Q; STOCHRSIK := Some 50%Q; STOCHRSID := Some 50%Q;
  TRIX30 := None; ADOSC := Some 0%Q
|}.

Definition three_rows : list bar :=
  [sample_bar 0 2; warmup_bar; sample_bar 0 1].

(** An oversold row: RSI 25, both stochastics at 10, CMO -60, Aroon
    down 80 over up 20, positive BOP, TRIX and A/D oscillator. *)
Definition oversold_bar : bar := {|
  AROONUP := Some 20%Q; AROONDN := Some 80%Q; BOP := Some 0.5%Q;
  CCI14 := Some 0%Q; CMO14 := Some (-60)%Q; MACDHIST := Some 0%Q;
  PPO12 := Some 0%Q; RSI14 := Some 25%Q; STOCHK := Some 10%Q;
  STOCHD := Some 10%Q; STOCHRSIK := Some 10%Q; STOCHRSID := Some 10%Q;
  TRIX30 := Some 0.1%Q; ADOSC := Some 3%Q
|}.

Definition oversold_frame : list bar := [oversold_bar].

Definition oversold_row : classified :=
  {| votes := with_votes oversold_frame 0 oversold_bar;
     STRATEGY_ID := "CCBCBBCCCCC" |}.

End Frames.

(** ** ouro_lib.py: trend labels, signal matrix, clock helpers, bar download *)

Module Lib.
Import Classifier.

(** [df.loc[mask, c] = v] on a column of labels. *)
Definition loc_assign_label (mask : list bool) (v : string)
    (col : list string) : list string :=
  zip_with (λ (m : bool) old, if m then v else old) mask col.

(** Lines 154-158, on the ADX14 column. *)
Definition ADXTREND_col (adx14 : list cell) : list string :=
  let col := (λ _, "Weak") <$> adx14 in
  let col := loc_assign_label ((λ x, ge x (num 25)) <$> adx14) "Changing" col in
  let col := loc_assign_label ((λ x, ge x (num 50)) <$> adx14) "Strong" col in
  let col := loc_assign_label ((λ x, ge x (num 75)) <$> adx14) "Very Strong" col in
  col.

(** Lines 160-164, on the ADXR14 column. *)
Definition ADXRTREND_col (adxr14 : list cell) : list string :=
  let col := (λ _, "Weak") <$> adxr14 in
  let col := loc_assign_label ((λ x, ge x (num 25)) <$> adxr14) "Changing" col in
  let col := loc_assign_label ((λ x, ge x (num 50)) <$> adxr14) "Strong" col in
  let col := loc_assign_label ((λ x, ge x (num 75)) <$> adxr14) "Very Strong" col in
  col.

(** [InitSignal(tickers, families)]: one dict of zeros per ticker. *)
Definition InitSignal (tickers families : list string)
    : gmap string (gmap string Z) :=
  foldl (λ sigarray t,
           <[t := foldl (λ m f, <[f := 0]> m) ∅ families]> sigarray)
        ∅ tickers.

(** [IsEOD(minutes)]; [delta] is [clock.next_close - clock.timestamp]
    in seconds, as [total_seconds()] gives it. *)
Definition IsEOD (minutes : Z) (delta : Q) : bool :=
  if int_of_float (delta / 60) <=? minutes then true else false.

(** Naive datetimes are counted in microseconds. *)
Definition minute : Z := 60000000.
Definition day : Z := 86400000000.

(** [roundTime(dt)]: format with '%Y-%m-%d %H:%M' and parse back, which
    drops the seconds and microseconds. *)
Definition roundTime (dt : Z) : Z := dt - dt mod minute.

(** The [seconds] attribute of a timedelta of [us] microseconds: a
    timedelta is kept as days, seconds and microseconds with
    0 <= seconds < 86400 and 0 <= microseconds < 1000000. *)
Definition timedelta_seconds (us : Z) : Z := (us mod day) / 1000000.

(** [WaitForMinute()]: the number of seconds handed to [time.sleep].
    [now1] is the clock read inside [roundTime()], [now2] the clock
    read on the next line. *)
Definition WaitForMinute (now1 now2 : Z) : Z :=
  let waituntil := roundTime now1 + minute in
  let waittime := waituntil - now2 in
  timedelta_seconds waittime + 1.

(** One bar of a barset. *)
Record ohlcv := { t : Z; h : Q; l : Q; o : Q; c : Q; v : Q }.

(** What [GetOHLCV] ends with. *)
Inductive fetched :=
| Frame (rows : list (string * ohlcv)) (slept : Z)
| UnboundLocalError (slept : Z)
| RawKeyError (slept : Z)
| StillRetrying.

(** Lines 363-372: ask until an answer comes; an attempt is the barset
    returned, or [None] when [get_barset] raised, which costs a sleep
    of 10 seconds.  Returns the barset and the seconds slept. *)
Fixpoint fetch_barset (attempts : list (option (list (string * list ohlcv))))
    (slept : Z) : option (list (string * list ohlcv) * Z) :=
  match attempts with
  | [] => None
  | Some barset :: _ => Some (barset, slept)
  | None :: rest => fetch_barset rest (slept + 10)
  end.

(** The DataFrame built for one stock: a row per bar, in order, with
    the ticker in front. *)
Definition frame_of (stock : string) (bars : list ohlcv)
    : list (string * ohlcv) :=
  (λ bar, (stock, bar)) <$> bars.

(** Lines 375-393: [raw[stock]] for every key, and the loop variable
    [stock] as the loop leaves it ([None] while it is unbound). *)
Definition convert_barset (barset : list (string * list ohlcv))
    : gmap string (list (string * ohlcv)) * option string :=
  foldl (λ acc (kv : string * list ohlcv),
           (<[kv.1 := frame_of kv.1 kv.2]> (acc.1), Some kv.1))
        (∅, None) barset.

(** [GetOHLCV], from the request on; the request itself is fixed before
    the loop and is not part of this model. *)
Definition GetOHLCV (attempts : list (option (list (string * list ohlcv))))
    : fetched :=
  match fetch_barset attempts 0 with
  | None => StillRetrying
  | Some (barset, slept) =>
      let '(raw, stock) := convert_barset barset in
      match stock with
      | None => UnboundLocalError slept
      | Some stock =>
          match raw !! stock with
          | Some df => Frame df slept
          | None => RawKeyError slept
          end
      end
  end.

End Lib.

(** ** Conditions on the inputs of a pass, and what the status dict records *)

Module Conditions.
Import Trader.


(** What the status dict holds for one ticker, against the two lists:
    no row and the ticker in neither list; a buy row and the ticker
    bought; a skip row without shares and the ticker skipped; or a skip
    row with shares (a refused order) and the ticker in neither list. *)
Definition recorded (s : session) (x : string) : Prop :=
  match status s !! x with
  | None => (x ∉ boughtlist s) ∧ (x ∉ skiplist s)
  | Some r =>
      Ticker r = x
      ∧ ((Decision r = "buy" ∧ 0 < OrderShares r
          ∧ x ∈ boughtlist s ∧ x ∉ skiplist s)
         ∨ (Decision r = "skip" ∧ OrderShares r <= 0
            ∧ x ∈ skiplist s ∧ x ∉ boughtlist s)
         ∨ (Decision r = "skip" ∧ 0 < OrderShares r
            ∧ (x ∉ boughtlist s) ∧ (x ∉ skiplist s)))
  end.

Definition consistent (s : session) : Prop :=
  NoDup (boughtlist s) ∧ NoDup (skiplist s) ∧ ∀ x, recorded s x.

(** A pass over BBB, then ZZZ, a ticker without a close in the tables,
    then CCC; 3 positions are held and the broker accepts orders. *)
Definition mixed_tick : tick_input :=
  {| inboundactions := [("BBB", Scenario.bbb); ("ZZZ", Scenario.aaa);
                        ("CCC", Scenario.ccc)];
     logtime := Scenario.now;
     broker_of := λ _, Scenario.held 3 true |}.

End Conditions.

(** ** ouro_trader.py: the tables, the phases of the script and the end of the day *)

Module Script.
Import Trader.

(** Lines 62-65 and 86-87: a dict filled row by row, a later row
    replacing an earlier one with the same key. *)
Definition build_index (rows : list (string * Q)) : gmap string Q :=
  foldl (λ m (kv : string * Q), <[kv.1 := kv.2]> m) ∅ rows.

(** The tables of a session, from the rows of buy_strategies.csv
    (Family, AvgPctRtn) and of the query on yesterday's closes. *)
Definition load_tables (strategies closes : list (string * Q)) : env :=
  {| familyreturns := build_index strategies;
     closeprices := build_index closes |}.

(** The two switches of the command line. *)
Record cmdline := { test : bool; marketopen : bool }.

(** What the broker's clock answers: [IsOpen()], and the seconds from
    its timestamp to the next close that [IsEOD] computes with. *)
Record clock := { is_open : bool; to_close : Q }.

(** The loop variables [marketopen] and [eod]. *)
Record flags := { open_now : bool; eod : bool }.

(** Lines 91-98. *)
Definition initial_flags (c : cmdline) (k : clock) : flags :=
  let f := {| open_now := is_open k; eod := Lib.IsEOD 75 (to_close k) |} in
  if marketopen c then {| open_now := true; eod := false |} else f.

(** Lines 101-104: [answers] are the answers of [IsOpen()] read while
    waiting, one before each sleep.  Returns the number of sleeps and
    the value [marketopen] is left with, or [None] while the answers
    given do not end the wait. *)
Fixpoint wait_for_open (c : cmdline) (open_now : bool) (answers : list bool)
    : option (nat * bool) :=
  if negb open_now && negb (test c) then
    match answers with
    | [] => None
    | ans :: rest =>
        match wait_for_open c ans rest with
        | Some (n, o) => Some (S n, o)
        | None => None
        end
    end
  else Some (0%nat, open_now).

(** Lines 91-104: the number of sleeps and the flags the trading loop
    is entered with. *)
Definition startup (c : cmdline) (k : clock) (answers : list bool)
    : option (nat * flags) :=
  let f := initial_flags c k in
  match wait_for_open c (open_now f) answers with
  | Some (n, o) => Some (n, {| open_now := o; eod := eod f |})
  | None => None
  end.

(** A reading of the clock that keeps the trading loop going. *)
Definition good (k : clock) : Prop :=
  is_open k = true ∧ Lib.IsEOD 75 (to_close k) = false.

(** How the trading loop stands after the passes given. *)
Inductive loop_end := Left | Running.

(** Lines 111-385: [while (marketopen and not eod) or cmdline.test is
    True].  A pass reads the clock first, then handles the action file
    as [tick] does; the sleep that ends it changes nothing here. *)
Fixpoint trading_loop (E : env) (c : cmdline) (f : flags)
    (passes : list (clock * tick_input)) (s : session)
    : result (session * loop_end) :=
  if (open_now f && negb (eod f)) || test c then
    match passes with
    | [] => Ok (s, Running)
    | (k, t) :: rest =>
        let f := {| open_now := is_open k; eod := Lib.IsEOD 75 (to_close k) |} in
        s' ← tick E t s;
        trading_loop E c f rest s'
    end
  else Ok (s, Left).

(** The broker calls of the wind-down and of the liquidation. *)
Inductive call :=
| cancel_order (order_id : string)
| close_position (symbol : string)
| cancel_all_orders
| close_all_positions.

Record open_order := { order_id : string; order_symbol : string }.

(** What one wind-down pass finds: the open orders, the held
    positions, and the clock read after the sleep of 60 seconds. *)
Record winddown_input := {
  open_orders : list open_order;
  held_symbols : list string;
  after_sleep : Q
}.

(** How the script ends. *)
Inductive ending :=
| Liquidated (calls : list call)
| NameErrorRaised (calls : list call)
| Winding (calls : list call).

(** Lines 411-425: the calls of one pass.  [earlylist] is assigned
    inside the [try] of lines 389-399, after the query: when the query
    raised, the name is unbound ([None] here) and the first test
    [stock.symbol in earlylist] raises NameError (the result [None]).
    A call that raises is logged and the loop goes on, so every call
    listed is attempted. *)
Definition winddown_pass (earlylist : option (list string))
    (w : winddown_input) : option (list call) :=
  match earlylist with
  | Some early =>
      Some (((λ o, cancel_order (order_id o))
               <$> filter (λ o, order_symbol o ∈ early) (open_orders w))
            ++ (close_position <$> filter (λ x, x ∈ early) (held_symbols w)))
  | None =>
      match open_orders w, held_symbols w with
      | [], [] => Some []
      | _, _ => None
      end
  end.

(** A call of the wind-down on an early-listed symbol: the
    cancellation of an open order on one, or the closing of a held
    position in one. *)
Definition early_call (early : list string) (passes : list winddown_input)
    (x : call) : Prop :=
  match x with
  | cancel_order i =>
      ∃ w o, w ∈ passes ∧ o ∈ open_orders w ∧ order_id o = i
           ∧ order_symbol o ∈ early
  | close_position sym => sym ∈ early ∧ ∃ w, w ∈ passes ∧ sym ∈ held_symbols w
  | _ => False
  end.

(** Lines 437-443: both calls sit in one [try]. *)
Definition liquidate (cancel_all_ok : bool) : list call :=
  cancel_all_orders :: (if cancel_all_ok then [close_all_positions] else []).

(** Lines 404-443. *)
Fixpoint winddown (c : cmdline) (earlylist : option (list string))
    (eod : bool) (passes : list winddown_input) (cancel_all_ok : bool)
    (made : list call) : ending :=
  if eod then Liquidated (made ++ liquidate cancel_all_ok)
  else
    match passes with
    | [] => Winding made
    | w :: rest =>
        match winddown_pass earlylist w with
        | None => NameErrorRaised made
        | Some calls =>
            let eod := if marketopen c then true else Lib.IsEOD 15 (after_sleep w) in
            winddown c earlylist eod rest cancel_all_ok (made ++ calls)
        end
    end.

(** Lines 401-443, from the clock read at line 404. *)
Definition end_of_day (c : cmdline) (earlylist : option (list string))
    (first : Q) (passes : list winddown_input) (cancel_all_ok : bool) : ending :=
  let eod := if marketopen c then true else Lib.IsEOD 15 first in
  winddown c earlylist eod passes cancel_all_ok [].

End Script.

(** ** A frame with its index *)

Module Indexed.
Import Classifier.

Section frames.
Context {label : Type} `{EqDecision label}.

(** Number of rows of the index that bear the label [x]. *)
Definition rows_labelled (x : label) (index : list label) : nat :=
  length (filter (λ y, y = x) index).

(** Lines 242-255 for the label [x] of one row.  [df.loc[x, c]] is the
    cell of the row when one row bears the label; when several do it
    is a Series, [66 + df.loc[x, c]] is a Series, and [chr] raises
    TypeError. *)
Definition set_strategy_id (index : list label) (row : label * voted)
    : result (label * classified) :=
  if decide (rows_labelled row.1 index = 1%nat) then
    c ← Classifier.set_strategy_id row.2; Ok (row.1, c)
  else Raise TypeError.

(** [calcind(df)] on a frame given with its index, after the ta-lib
    columns are in place: the votes are assigned by position, [dropna]
    keeps the labels of the rows it keeps, and the loop of lines
    242-255 goes through [df.index]. *)
Definition calcind (df : list (label * bar))
    : result (option (list (label * classified))) :=
  match df with
  | [] => Ok None
  | _ =>
      let rows := imap (λ i row, (row.1, with_votes df.*2 i row.2)) df in
      let rows := filter (λ row, notna (ind row.2)) rows in
      out ← mapM (set_strategy_id rows.*1) rows;
      Ok (Some out)
  end.

End frames.

(** Three rows labelled 0, 1, 1 and three rows labelled 0, 1, 2. *)
Definition repeated_label : list (Z * bar) :=
  [(0, Readings.sample_bar 0 2); (1, Readings.sample_bar 0 1);
   (1, Readings.sample_bar 0 0)].

Definition range_index : list (Z * bar) :=
  [(0, Readings.sample_bar 0 2); (1, Readings.sample_bar 0 1);
   (2, Readings.sample_bar 0 0)].

End Indexed.

(** ** The loop body with the conversion of line 170 checked *)

Module Checked.
Import Trader.

(** The largest binary64 is 2^1024 - 2^971.  A quotient whose exact
    value reaches 2^1024 - 2^970 in magnitude is rounded to inf by the
    float division. *)
Definition float_inf : Q := inject_Z (2 ^ 1024 - 2 ^ 970).


(** [int(x / y)] at line 170, for the exact quotient [q] of two
    floats: the division gives inf when [q] is out of range, and
    [int(inf)] raises OverflowError. *)
Definition int_of_quotient (q : Q) : result Z :=
  if Qle_bool float_inf q || Qle_bool q (- float_inf) then Raise OverflowError
  else Ok (int_of_float q).

(** Lines 139-340 with the conversion of line 170 checked; the rest is
    [Trader.process_stock]. *)
Definition process_stock (E : env) (inboundcount : Z) (logtime : string)
    (b : broker) (stock : string) (a : action) (s : session) : result session :=
  if bool_decide ((stock ∉ boughtlist s) ∧ (stock ∉ skiplist s)) then
    yesterdayclose ← float_get (closeprices E) stock;
    let maxriskamt := maxriskamt inboundcount s in
    let ordercount := positions b in
    q ← fdiv (tradecapital s) (price a);
    ordershares ← int_of_quotient q;
    if ordercount <? 10 then
      p ← pricing E a yesterdayclose maxriskamt ordershares;
      place_or_skip logtime stock a b maxriskamt ordercount p s
    else Ok s
  else Ok s.

(** Lines 138-343. *)
Fixpoint stocks_loop (E : env) (n : Z) (t : tick_input)
    (items : list (string * action)) (s : session) : result session :=
  match items with
  | [] => Ok s
  | (stock, a) :: rest =>
      s' ← process_stock E n (logtime t) (broker_of t stock) stock a s;
      stocks_loop E n t rest s'
  end.

(** One iteration of the trading loop. *)
Definition tick (E : env) (t : tick_input) (s : session) : result session :=
  s' ← stocks_loop E (inboundcount (inboundactions t) s) t (inboundactions t) s;
  Ok (write_files s').

Fixpoint run (E : env) (ts : list tick_input) (s : session) : result session :=
  match ts with
  | [] => Ok s
  | t :: rest => s' ← tick E t s; run E rest s'
  end.






End Checked.

(** * Facts *)

Lemma bind_Ok {A B} (f : A → result B) (m : result A) (b : B) :
  m ≫= f = Ok b → ∃ a, m = Ok a ∧ f a = Ok b.
Proof. destruct m as [a|e]; simpl; [eauto | discriminate]. Qed.

Lemma Qlt_bool_iff (x y : Q) : Qlt_bool x y = true ↔ (x < y)%Q.
Proof.
  unfold Qlt_bool. rewrite negb_true_iff, <- not_true_iff_false, Qle_bool_iff.
  split; [apply Qnot_le_lt | apply Qlt_not_le].
Qed.

Lemma mapM_Ok_elem {A B} (f : A → result B) (l : list A) (out : list B) (y : B) :
  mapM f l = Ok out → y ∈ out → ∃ x, x ∈ l ∧ f x = Ok y.
Proof.
  revert out. induction l as [|x l IH]; intros out Hm Hy; simpl in Hm.
  - injection Hm as <-. by apply elem_of_nil in Hy.
  - apply bind_Ok in Hm as (y0 & Hx & Hm).
    apply bind_Ok in Hm as (k & Hk & Hm).
    injection Hm as <-.
    apply elem_of_cons in Hy as [-> | Hy].
    + exists x. split; [left | done].
    + destruct (IH k Hk Hy) as (x' & Hin & Hf).
      exists x'. split; [by right | done].
Qed.

Module ClassifierFacts.
Import Classifier Readings.

Lemma CCIVOTE_col_lookup (df : list bar) (i : nat) :
  CCIVOTE_col df !! i = (λ r, cci_vote (CCI14 r)) <$> df !! i.
Proof.
  unfold CCIVOTE_col, loc_assign, const_col.
  rewrite !lookup_zip_with, !list_lookup_fmap.
  destruct (df !! i); reflexivity.
Qed.

Lemma shift_m1_lookup (s : list cell) (i : nat) :
  (i < length s)%nat →
  shift_m1 s !! i = Some (match s !! S i with Some c => c | None => None end).
Proof.
  destruct s as [|h t]; simpl; [lia |]. intros Hi.
  destruct (decide (i < length t)%nat) as [Hlt | Hge].
  - rewrite lookup_app_l by done.
    destruct (lookup_lt_is_Some_2 t i Hlt) as [c Hc]. by rewrite Hc.
  - assert (i = length t) as -> by lia.
    rewrite list_lookup_middle by done.
    by rewrite lookup_ge_None_2.
Qed.

Lemma MACDVOTE_col_lookup (df : list bar) (i : nat) (r : bar) :
  df !! i = Some r →
  MACDVOTE_col df !! i = Some (macd_vote (MACDHIST r) (next_hist df i)).
Proof.
  intros Hr. unfold MACDVOTE_col, loc_assign, const_col.
  rewrite !lookup_zip_with, !list_lookup_fmap.
  rewrite shift_m1_lookup
    by (rewrite length_fmap; by eapply lookup_lt_Some).
  rewrite !list_lookup_fmap, Hr. simpl.
  unfold next_hist, macd_vote.
  destruct (df !! S i); reflexivity.
Qed.

Lemma next_hist_last (df : list bar) (i : nat) :
  S i = length df → next_hist df i = None.
Proof.
  intros Hi. unfold next_hist. rewrite lookup_ge_None_2; [done | lia].
Qed.

Lemma macd_vote_no_next (h : cell) : macd_vote h None = 0.
Proof.
  unfold macd_vote, gt, lt, eq, cmp, num.
  destruct h as [x|]; simpl; [| done].
  rewrite !andb_false_r. by destruct (Qeq_bool x 0).
Qed.

Lemma calcind_elem (df : list bar) (out : list classified) (c : classified) :
  calcind df = Ok (Some out) → c ∈ out →
  ∃ i r, df !! i = Some r ∧ notna r ∧ votes c = with_votes df i r.
Proof.
  intros Hc Hin. unfold calcind in Hc.
  destruct df as [|r0 df0]; [discriminate |].
  apply bind_Ok in Hc as (out0 & Hm & Heq). injection Heq as ->.
  destruct (mapM_Ok_elem _ _ _ _ Hm Hin) as (v & Hv & Hs).
  unfold set_strategy_id in Hs.
  apply bind_Ok in Hs as (sid & _ & Hs). injection Hs as <-. simpl.
  unfold dropna in Hv. apply list_elem_of_filter in Hv as [Hna Hv].
  apply elem_of_lookup_imap in Hv as (i & r & -> & Hr).
  exists i, r. by repeat split.
Qed.

Lemma cci_vote_cases (x : Q) :
  (cci_vote (Some x) = 1 ↔ (100 <= x)%Q)
  ∧ (cci_vote (Some x) = -1 ↔ (x <= -100)%Q)
  ∧ (cci_vote (Some x) = 0 ↔ (-100 < x)%Q ∧ (x < 100)%Q).
Proof.
  unfold cci_vote, ge, le, cmp, num.
  destruct (Qle_bool 100 x) eqn:Hge; destruct (Qle_bool x (-100)) eqn:Hle;
    try apply Qle_bool_iff in Hge; try apply Qle_bool_iff in Hle;
    try (apply not_true_iff_false in Hge; rewrite Qle_bool_iff in Hge);
    try (apply not_true_iff_false in Hle; rewrite Qle_bool_iff in Hle);
    repeat split; intros; try discriminate; try lra.
Qed.

(** C2, as amended.  For every record that [calcind] returns, the CCI
    cell is defined and the CCI vote is +1 exactly when CCI(14) >= 100,
    -1 exactly when CCI(14) <= -100 and 0 strictly in between: the
    sides are the other way round from the claim. *)
Theorem cci_vote_thresholds (df : list bar) (out : list classified)
    (c : classified) :
  calcind df = Ok (Some out) → c ∈ out →
  ∃ x, CCI14 (ind (votes c)) = Some x
     ∧ (CCIVOTE (votes c) = 1 ↔ (100 <= x)%Q)
     ∧ (CCIVOTE (votes c) = -1 ↔ (x <= -100)%Q)
     ∧ (CCIVOTE (votes c) = 0 ↔ (-100 < x)%Q ∧ (x < 100)%Q).
Proof.
  intros Hc Hin.
  destruct (calcind_elem df out c Hc Hin) as (i & r & Hr & Hna & ->).
  simpl.
  assert (is_Some (CCI14 r)) as [x Hx].
  { unfold notna, dropna_subset in Hna.
    rewrite !Forall_cons in Hna. tauto. }
  exists x. split; [done |].
  erewrite list_lookup_total_correct
    by (rewrite CCIVOTE_col_lookup, Hr; reflexivity).
  rewrite Hx. apply cci_vote_cases.
Qed.

(** The theorem at a frame of one row with CCI(14) = -120. *)
Lemma cci_vote_thresholds_witness :
  ∃ x, CCI14 (ind (votes low_cci_row)) = Some x
     ∧ (CCIVOTE (votes low_cci_row) = 1 ↔ (100 <= x)%Q)
     ∧ (CCIVOTE (votes low_cci_row) = -1 ↔ (x <= -100)%Q)
     ∧ (CCIVOTE (votes low_cci_row) = 0 ↔ (-100 < x)%Q ∧ (x < 100)%Q).
Proof.
  apply (cci_vote_thresholds low_cci_frame [low_cci_row] low_cci_row).
  - vm_compute. reflexivity.
  - apply list_elem_of_singleton. reflexivity.
Defined.

(** C2 as stated fails: a returned row with CCI(14) = 150, which is not
    <= -100, carries the vote +1, and a returned row with CCI(14) = -120,
    which is not >= 100, carries the vote -1. *)
Lemma cci_vote_counterexample :
  returned_cci (calcind [sample_bar 150 0; sample_bar (-120) 0])
    = [Some 150%Q; Some (-120)%Q]
  ∧ returned_votes CCIVOTE (calcind [sample_bar 150 0; sample_bar (-120) 0])
    = [1; -1]
  ∧ Qle_bool 150 (-100) = false
  ∧ Qle_bool 100 (-120) = false.
Proof. vm_compute. repeat split. Qed.

(** C5, as amended.  The MACD vote of row [i] is computed from the
    histogram of row [i] and of row [i+1] alone, no earlier row is read;
    it is 0 when the histogram of row [i] is 0, and it is 0, a defined
    Neutral, on the last row, whose neighbour is NaN. *)
Theorem macd_vote_lookahead (df : list bar) (i : nat) (r : bar) :
  df !! i = Some r →
  MACDVOTE (with_votes df i r) = macd_vote (MACDHIST r) (next_hist df i)
  ∧ (eq (MACDHIST r) (num 0) = true → MACDVOTE (with_votes df i r) = 0)
  ∧ (S i = length df → MACDVOTE (with_votes df i r) = 0).
Proof.
  intros Hr. simpl.
  rewrite (list_lookup_total_correct _ _ _ (MACDVOTE_col_lookup df i r Hr)).
  split; [done |]. split.
  - intros H0. unfold macd_vote. by rewrite H0.
  - intros Hlast. rewrite next_hist_last by done. apply macd_vote_no_next.
Qed.

(** The theorem at the last row of a frame of two rows. *)
Lemma macd_vote_lookahead_witness :
  MACDVOTE (with_votes [sample_bar 0 (-1); sample_bar 0 1] 1 (sample_bar 0 1))
    = macd_vote (Some 1%Q) None
  ∧ (eq (Some 1%Q) (num 0) = true →
     MACDVOTE (with_votes [sample_bar 0 (-1); sample_bar 0 1] 1 (sample_bar 0 1)) = 0)
  ∧ (2%nat = 2%nat →
     MACDVOTE (with_votes [sample_bar 0 (-1); sample_bar 0 1] 1 (sample_bar 0 1)) = 0).
Proof.
  apply (macd_vote_lookahead [sample_bar 0 (-1); sample_bar 0 1] 1 (sample_bar 0 1)).
  reflexivity.
Defined.

(** C5 as stated fails.  With histogram -1 then +1 the value crosses
    upward through 0 and row 0 votes -1 (Sell); with +1 then -1 it
    crosses downward and row 0 votes +1; with 5 then 3 nothing crosses
    and row 0 votes +1.  In each frame the last row votes 0, a defined
    value. *)
Lemma macd_vote_counterexample :
  returned_votes MACDVOTE (calcind [sample_bar 0 (-1); sample_bar 0 1]) = [-1; 0]
  ∧ returned_votes MACDVOTE (calcind [sample_bar 0 1; sample_bar 0 (-1)]) = [1; 0]
  ∧ returned_votes MACDVOTE (calcind [sample_bar 0 5; sample_bar 0 3]) = [1; 0].
Proof. vm_compute. repeat split. Qed.

Lemma chr_vote (x : Z) :
  is_vote x → chr (66 + x) = Ok (String (vote_char x) EmptyString).
Proof. intros [-> | [-> | ->]]; reflexivity. Qed.

Lemma vote_char_abc (x : Z) :
  vote_char x = "A"%char ∨ vote_char x = "B"%char ∨ vote_char x = "C"%char.
Proof.
  unfold vote_char. destruct (x =? -1); [by left |].
  destruct (x =? 0); [right; by left | right; by right].
Qed.

Lemma ord_vote_char (x : Z) : is_vote x → ord (vote_char x) - 66 = x.
Proof. intros [-> | [-> | ->]]; reflexivity. Qed.

Lemma strategy_id_chars (v : voted) :
  Forall is_vote (vote_vector v) →
  strategy_id v = Ok (string_of_list_ascii (vote_char <$> vote_vector v)).
Proof.
  intros Hv. unfold vote_vector in *.
  rewrite !Forall_cons in Hv.
  destruct Hv as (Ha & Hb & Hc & Hd & He & Hf & Hg & Hh & Hi & Hj & Hk & _).
  unfold strategy_id.
  rewrite (chr_vote _ Ha), (chr_vote _ Hb), (chr_vote _ Hc), (chr_vote _ Hd),
    (chr_vote _ He), (chr_vote _ Hf), (chr_vote _ Hg), (chr_vote _ Hh),
    (chr_vote _ Hi), (chr_vote _ Hj), (chr_vote _ Hk).
  cbv [mbind result_bind String.append]. reflexivity.
Qed.

Lemma decode_chars (l : list Z) :
  Forall is_vote l → decode (string_of_list_ascii (vote_char <$> l)) = l.
Proof.
  induction 1 as [|x l Hx _ IH]; [done |].
  cbn [fmap list_fmap string_of_list_ascii decode].
  by rewrite ord_vote_char, IH.
Qed.

Lemma length_chars (l : list ascii) :
  String.length (string_of_list_ascii l) = length l.
Proof. induction l as [|c l IH]; [done |]. simpl. by rewrite IH. Qed.

(** C9.  For every vote vector over -1, 0, +1, the identifier is
    produced, has 11 characters, each the character of the vote at its
    position in the family order (-1 'A', 0 'B', +1 'C'), so each is
    one of A, B, C; and [decode] gives the votes back. *)
Theorem strategy_id_decode (v : voted) :
  Forall is_vote (vote_vector v) →
  ∃ s, strategy_id v = Ok s
     ∧ String.length s = 11%nat
     ∧ list_ascii_of_string s = vote_char <$> vote_vector v
     ∧ Forall (λ c, c = "A"%char ∨ c = "B"%char ∨ c = "C"%char)
              (list_ascii_of_string s)
     ∧ decode s = vote_vector v.
Proof.
  intros Hv.
  exists (string_of_list_ascii (vote_char <$> vote_vector v)).
  split; [by apply strategy_id_chars |].
  split; [by rewrite length_chars, length_fmap |].
  rewrite list_ascii_of_string_of_list_ascii.
  split; [done |]. split.
  - apply Forall_fmap, Forall_true. intros x. apply vote_char_abc.
  - by apply decode_chars.
Qed.

(** The theorem at the votes -1, 0, 1, -1, 0, 1, -1, 0, 1, -1, 0. *)
Lemma strategy_id_decode_witness :
  ∃ s, strategy_id abc_votes = Ok s
     ∧ String.length s = 11%nat
     ∧ list_ascii_of_string s = vote_char <$> vote_vector abc_votes
     ∧ Forall (λ c, c = "A"%char ∨ c = "B"%char ∨ c = "C"%char)
              (list_ascii_of_string s)
     ∧ decode s = vote_vector abc_votes.
Proof.
  apply (strategy_id_decode abc_votes).
  unfold vote_vector, abc_votes, is_vote. simpl.
  repeat (apply Forall_cons; split; [lia |]). apply Forall_nil_2.
Defined.

(** *** Every row that comes back carries votes and an identifier *)

Lemma const_col_votes (df : list bar) : Forall is_vote (const_col df 0).
Proof.
  unfold const_col. apply Forall_fmap, Forall_true. intros r. right. by left.
Qed.

Lemma loc_assign_votes (mask : list bool) (v : Z) (col : list Z) :
  is_vote v → Forall is_vote col → Forall is_vote (loc_assign mask v col).
Proof.
  intros Hv Hcol. unfold loc_assign. revert mask.
  induction Hcol as [|x col Hx _ IH]; intros [|m mask]; simpl;
    try apply Forall_nil_2.
  apply Forall_cons. split; [by destruct m | apply IH].
Qed.

Lemma lookup_total_vote (col : list Z) (i : nat) :
  Forall is_vote col → is_vote (col !!! i).
Proof.
  intros Hcol. rewrite list_lookup_total_alt.
  destruct (col !! i) as [x|] eqn:Hx; simpl.
  - rewrite Forall_lookup in Hcol. by apply (Hcol i).
  - vm_compute. tauto.
Qed.

Lemma is_vote_values : is_vote (-1) ∧ is_vote 0 ∧ is_vote 1.
Proof. unfold is_vote. lia. Qed.

Ltac vote_column :=
  repeat (apply loc_assign_votes; [apply is_vote_values |]);
  apply const_col_votes.

Lemma with_votes_in_range (df : list bar) (i : nat) (r : bar) :
  Forall is_vote (vote_vector (with_votes df i r)).
Proof.
  unfold vote_vector, with_votes. cbn [AROONVOTE BOPVOTE CCIVOTE CMOVOTE
    MACDVOTE PPOVOTE RSIVOTE STOCHVOTE STOCHRSIVOTE TRIXVOTE ADOSCVOTE].
  repeat (apply Forall_cons; split; [apply lookup_total_vote |]);
    try apply Forall_nil_2.
  all: unfold AROONVOTE_col, BOPVOTE_col, CCIVOTE_col, CMOVOTE_col,
    MACDVOTE_col, PPOVOTE_col, RSIVOTE_col, STOCHVOTE_col, STOCHRSIVOTE_col,
    TRIXVOTE_col, ADOSCVOTE_col; vote_column.
Qed.

Lemma PPOVOTE_neutral (df : list bar) (i : nat) (r : bar) :
  df !! i = Some r → PPOVOTE (with_votes df i r) = 0.
Proof.
  intros Hr. cbn [with_votes PPOVOTE]. unfold PPOVOTE_col, const_col.
  by rewrite list_lookup_total_alt, list_lookup_fmap, Hr.
Qed.

Lemma mapM_Ok_all {A B} (f : A → result B) (l : list A) :
  Forall (λ x, ∃ y, f x = Ok y) l → ∃ out, mapM f l = Ok out.
Proof.
  induction 1 as [|x l [y Hy] _ [out IH]]; simpl.
  - by exists [].
  - rewrite Hy. cbn [mbind result_bind].
    change (mapM f l) with (mapM f l) in IH. rewrite IH. by exists (y :: out).
Qed.

(** On a frame without index [calcind] returns; an empty frame gives
    [None]; every row returned has its subset columns defined, votes
    among -1, 0, +1, a PPO vote of 0, and the identifier of its votes,
    which [decode] maps back to them. *)
Lemma calcind_returns (df : list bar) :
  ∃ o, calcind df = Ok o
     ∧ (df = [] → o = None)
     ∧ ∀ out c, o = Some out → c ∈ out →
         notna (ind (votes c))
         ∧ Forall is_vote (vote_vector (votes c))
         ∧ PPOVOTE (votes c) = 0
         ∧ strategy_id (votes c) = Ok (STRATEGY_ID c)
         ∧ String.length (STRATEGY_ID c) = 11%nat
         ∧ decode (STRATEGY_ID c) = vote_vector (votes c).
Proof.
  destruct df as [|r0 df0] eqn:Hdf.
  { exists None. split_and!; try done. }
  rewrite <- Hdf.
  assert (∃ out, mapM set_strategy_id (dropna (imap (with_votes df) df)) = Ok out)
    as [out Hout].
  { apply mapM_Ok_all, Forall_forall. intros v Hv.
    unfold dropna in Hv. apply list_elem_of_filter in Hv as [_ Hv].
    apply elem_of_lookup_imap in Hv as (i & r & -> & _).
    unfold set_strategy_id.
    rewrite (strategy_id_chars _ (with_votes_in_range df i r)).
    cbn [mbind result_bind]. eauto. }
  assert (calcind df = Ok (Some out)) as Hc.
  { unfold calcind. rewrite Hdf, <- Hdf. cbn zeta. by rewrite Hout. }
  exists (Some out). split; [done |]. split; [by rewrite Hdf |].
  intros out' c [= <-] Hin.
  destruct (calcind_elem df out c Hc Hin) as (i & r & Hr & Hna & Hv).
  destruct (mapM_Ok_elem _ _ _ _ Hout Hin) as (v & _ & Hs).
  unfold set_strategy_id in Hs. apply bind_Ok in Hs as (sid & Hsid & [= <-]).
  cbn [votes STRATEGY_ID] in *. subst v.
  pose proof (with_votes_in_range df i r) as Hrange.
  rewrite (strategy_id_chars _ Hrange) in Hsid. injection Hsid as <-.
  cbn [ind with_votes]. split_and!; try done.
  - by apply PPOVOTE_neutral.
  - exact (strategy_id_chars _ Hrange).
  - exact (decode_chars _ Hrange).
Qed.

End ClassifierFacts.

Module TraderFacts.
Import Trader Scenario.

(** *** Divisions and status rows *)

Lemma fdiv_Ok (x y : Q) : ¬ (y == 0)%Q → fdiv x y = Ok (x / y)%Q.
Proof.
  intros Hy. unfold fdiv.
  destruct (Qeq_bool y 0) eqn:E; [| done].
  by apply Qeq_bool_eq in E.
Qed.

Lemma fdiv_inv (x y q : Q) : fdiv x y = Ok q → ¬ (y == 0)%Q ∧ q = (x / y)%Q.
Proof.
  unfold fdiv. destruct (Qeq_bool y 0) eqn:E; [discriminate |].
  intros [= <-]. split; [| done]. by apply Qeq_bool_neq.
Qed.

Lemma status_row_inv logtime stock a mra p decision reason s r :
  status_row logtime stock a mra p decision reason s = Ok r →
  Cash r = cash s ∧ TradeCapital r = tradecapital s
  ∧ MaxRiskAmt r = mra ∧ OrderShares r = ordershares p
  ∧ Decision r = decision ∧ Reason r = reason.
Proof.
  unfold status_row. intros H.
  apply bind_Ok in H as (prp & _ & [= <-]). by repeat split.
Qed.


(** *** What handling one stock can do *)

Lemma place_or_skip_inv logtime stock a b mra oc p s s' :
  place_or_skip logtime stock a b mra oc p s = Ok s' →
  cash s' = cash s ∧ tradecapital s' = tradecapital s
  ∧ buyskipfile s' = buyskipfile s ∧ statusfile s' = statusfile s
  ∧ ((0 < ordershares p ∧ accepts b = true
      ∧ boughtlist s' = boughtlist s ++ [stock] ∧ skiplist s' = skiplist s
      ∧ ∃ r, status_row logtime stock a mra p "buy" (strategyfamily a) s = Ok r
           ∧ status s' = <[stock := r]> (status s))
     ∨ (0 < ordershares p ∧ accepts b = false
        ∧ boughtlist s' = boughtlist s ∧ skiplist s' = skiplist s
        ∧ (stock ∈ skiplist s ∧ status s' = status s
           ∨ ∃ r, status_row logtime stock a mra p "skip"
                    (skipreason p +:+ " - buy order failed; eligible for retry.") s
                  = Ok r
                ∧ status s' = <[stock := r]> (status s)))
     ∨ (ordershares p ≤ 0 ∧ (stock ∉ skiplist s)
        ∧ boughtlist s' = boughtlist s ∧ skiplist s' = skiplist s ++ [stock]
        ∧ orders s' = orders s
        ∧ ∃ r, status_row logtime stock a mra p "skip"
                 (default_skipreason stock oc p s +:+ "; not eligible for retry.") s
               = Ok r
             ∧ status s' = <[stock := r]> (status s))
     ∨ (ordershares p ≤ 0 ∧ stock ∈ skiplist s ∧ s' = s)).
Proof.
  unfold place_or_skip.
  destruct (0 <? ordershares p) eqn:Hsh.
  - apply Z.ltb_lt in Hsh. destruct (accepts b) eqn:Hacc.
    + intros Hres. apply bind_Ok in Hres as (r & Hr & [= <-]). simpl.
      repeat split. left. repeat split; try done. by exists r.
    + case_bool_decide as Hsk.
      * intros Hres. apply bind_Ok in Hres as (r & Hr & [= <-]). simpl.
        repeat split. right; left. repeat split; try done.
        right. by exists r.
      * intros [= <-]. simpl. repeat split. right; left.
        repeat split; try done. left. split; [exact Hsk | reflexivity].
  - apply Z.ltb_ge in Hsh. case_bool_decide as Hsk.
    + intros Hres. apply bind_Ok in Hres as (r & Hr & [= <-]). simpl.
      repeat split. right; right; left. repeat split; try done. by exists r.
    + intros [= <-]. repeat split. right; right; right.
      split; [exact Hsh |]. split; [exact Hsk | reflexivity].
Qed.

Lemma process_stock_inv E n logtime b stock a s s' :
  process_stock E n logtime b stock a s = Ok s' →
  s' = s
  ∨ (eligible stock s ∧ positions b < 10
     ∧ ∃ p, risk_engine E n stock a s = Ok p
          ∧ place_or_skip logtime stock a b (maxriskamt n s) (positions b) p s
            = Ok s').
Proof.
  unfold process_stock, risk_engine.
  case_bool_decide as Hel; [| intros [= <-]; by left].
  destruct (float_get (closeprices E) stock) as [yc|e]; [| discriminate].
  simpl. destruct (fdiv (tradecapital s) (price a)) as [q|e]; [| discriminate].
  simpl. destruct (positions b <? 10) eqn:Hc; [| intros [= <-]; by left].
  apply Z.ltb_lt in Hc. intros H.
  apply bind_Ok in H as (p & Hp & H).
  right. repeat split; try done; try apply Hel. by exists p.
Qed.

Lemma process_stock_eval E n logtime b stock a s p :
  eligible stock s → positions b < 10 →
  risk_engine E n stock a s = Ok p →
  process_stock E n logtime b stock a s
  = place_or_skip logtime stock a b (maxriskamt n s) (positions b) p s.
Proof.
  intros Hel Hc. unfold process_stock, risk_engine.
  rewrite bool_decide_eq_true_2 by exact Hel.
  destruct (float_get (closeprices E) stock) as [yc|e]; [| discriminate].
  simpl. destruct (fdiv (tradecapital s) (price a)) as [q|e]; [| discriminate].
  simpl. apply Z.ltb_lt in Hc. rewrite Hc. by intros ->.
Qed.

(** *** Steps *)

Lemma status_insert_rows logtime stock a mra p decision reason s r
    (st : gmap string row) :
  status_row logtime stock a mra p decision reason s = Ok r →
  st = <[stock := r]> (status s) →
  ∀ k r0, st !! k = Some r0 →
    status s !! k = Some r0
    ∨ (Cash r0 = cash s ∧ TradeCapital r0 = tradecapital s).
Proof.
  intros Hr -> k r0 Hk.
  destruct (decide (stock = k)) as [-> | Hne].
  - rewrite lookup_insert_eq in Hk. injection Hk as <-.
    apply status_row_inv in Hr. right. tauto.
  - rewrite lookup_insert_ne in Hk by done. by left.
Qed.

Lemma process_stock_effect E n logtime b stock a s s' :
  process_stock E n logtime b stock a s = Ok s' →
  cash s' = cash s ∧ tradecapital s' = tradecapital s
  ∧ buyskipfile s' = buyskipfile s ∧ statusfile s' = statusfile s
  ∧ ((boughtlist s' = boughtlist s ∧ skiplist s' = skiplist s)
     ∨ (eligible stock s ∧ boughtlist s' = boughtlist s ++ [stock]
        ∧ skiplist s' = skiplist s)
     ∨ (eligible stock s ∧ boughtlist s' = boughtlist s
        ∧ skiplist s' = skiplist s ++ [stock]))
  ∧ (∀ k r, status s' !! k = Some r →
       status s !! k = Some r
       ∨ (Cash r = cash s ∧ TradeCapital r = tradecapital s)).
Proof.
  intros H. apply process_stock_inv in H as [-> | (Hel & Hc & p & Hp & H)].
  { split_and!; try done. - by left. - intros k r Hk. by left. }
  apply place_or_skip_inv in H
    as (H1 & H2 & H3 & H4 &
        [(_ & _ & Hb & Hs & r & Hr & Hst)
        |[(_ & _ & Hb & Hs & [[_ Hst] | (r & Hr & Hst)])
        |[(_ & _ & Hb & Hs & _ & r & Hr & Hst)
        |(_ & _ & ->)]]]).
  - split_and!; try done.
    + right; left. by split_and!.
    + by eapply status_insert_rows.
  - split_and!; try done.
    + by left.
    + intros k r Hk. left. by rewrite <- Hst.
  - split_and!; try done.
    + by left.
    + by eapply status_insert_rows.
  - split_and!; try done.
    + right; right. by split_and!.
    + by eapply status_insert_rows.
  - split_and!; try done.
    + by left.
    + intros k r Hk. by left.
Qed.

Lemma step_effect E s s' :
  step E s s' →
  cash s' = cash s ∧ tradecapital s' = tradecapital s
  ∧ ((boughtlist s' = boughtlist s ∧ skiplist s' = skiplist s)
     ∨ (∃ x, eligible x s ∧ boughtlist s' = boughtlist s ++ [x]
           ∧ skiplist s' = skiplist s)
     ∨ (∃ x, eligible x s ∧ boughtlist s' = boughtlist s
           ∧ skiplist s' = skiplist s ++ [x]))
  ∧ (∀ k r, status s' !! k = Some r →
       status s !! k = Some r
       ∨ (Cash r = cash s ∧ TradeCapital r = tradecapital s)).
Proof.
  intros [n logtime b stock a s0 s1 H | s0].
  - apply process_stock_effect in H as (H1 & H2 & _ & _ & Hl & Hst).
    split_and!; try done.
    destruct Hl as [Hl | [(Hel & Hl) | (Hel & Hl)]].
    + by left.
    + right; left. by exists stock.
    + right; right. by exists stock.
  - simpl. split_and!; try done. + by left. + intros k r Hk. by left.
Qed.

(** The passes of the loop are sequences of steps. *)
Lemma stocks_loop_steps E n t items s s' :
  stocks_loop E n t items s = Ok s' → rtc (step E) s s'.
Proof.
  revert s. induction items as [|[stock a] rest IH]; intros s H; simpl in H.
  - injection H as <-. apply rtc_refl.
  - apply bind_Ok in H as (s1 & H1 & H).
    eapply rtc_l; [| by apply IH]. by eapply step_stock.
Qed.

Lemma tick_steps E t s s' : tick E t s = Ok s' → rtc (step E) s s'.
Proof.
  unfold tick. intros H. apply bind_Ok in H as (s1 & H1 & [= <-]).
  eapply rtc_r; [by eapply stocks_loop_steps | apply step_write].
Qed.

Lemma run_steps E ts s s' : run E ts s = Ok s' → rtc (step E) s s'.
Proof.
  revert s. induction ts as [|t rest IH]; intros s H; simpl in H.
  - injection H as <-. apply rtc_refl.
  - apply bind_Ok in H as (s1 & H1 & H).
    etrans; [by eapply tick_steps | by apply IH].
Qed.

Lemma run_reachable E acct0 ts s0 s :
  session_start acct0 = Ok s0 → run E ts s0 = Ok s → reachable E s.
Proof. intros H0 H. exists acct0, s0. split; [done | by eapply run_steps]. Qed.

(** *** The pricing block *)

Ltac split_pricing H :=
  repeat match type of H with
  | context [if ?c then _ else _] => destruct c eqn:?
  | context [fdiv ?x ?y] => destruct (fdiv x y) eqn:?
  | _ => progress cbn [mbind result_bind] in H
  | Raise _ = Ok _ => discriminate H
  end.

(** The reason the block ends with is that of the last rule that
    fired, and the share count it ends with is 0 unless no rule fired. *)
Lemma pricing_skipreason E a yc mra sh p :
  pricing E a yc mra sh = Ok p →
  skipreason p =
    (if risk_rule p then "Risk outweighs reward"
     else if return_rule a yc p
     then "The potential return has already been met today."
     else if stoploss_rule a p then "Proposed stop-loss price already hit today"
     else "Unknown")
  ∧ (ordershares p = 0
     ∨ (ordershares p = sh ∧ risk_rule p = false
        ∧ return_rule a yc p = false ∧ stoploss_rule a p = false)).
Proof.
  unfold pricing. intros H.
  destruct (getitem (familyreturns E) (strategyfamily a)) as [fr|e];
    [| discriminate].
  cbn [mbind result_bind] in H.
  split_pricing H.
  all: injection H as <-; unfold risk_rule, return_rule, stoploss_rule;
    cbn [traderet traderiskpct floorpct ordershares skipreason];
    repeat match goal with Hx : ?t = _ |- context [?t] => rewrite Hx end;
    cbn [andb]; (split; [reflexivity |]); first [by left | right; done].
Qed.

Lemma risk_engine_pricing E n stock a s yc p :
  closeprices E !! stock = Some yc →
  risk_engine E n stock a s = Ok p →
  ∃ q, fdiv (tradecapital s) (price a) = Ok q
     ∧ pricing E a yc (maxriskamt n s) (int_of_float q) = Ok p.
Proof.
  intros Hyc. unfold risk_engine, float_get. rewrite Hyc.
  cbn [mbind result_bind]. intros H.
  apply bind_Ok in H as (q & Hq & H). by exists q.
Qed.

Lemma default_skipreason_last E n stock a s yc p oc :
  closeprices E !! stock = Some yc →
  risk_engine E n stock a s = Ok p →
  stock ∉ boughtlist s → oc < 10 →
  default_skipreason stock oc p s = last_reason a yc p.
Proof.
  intros Hyc Hp Hb Hoc.
  destruct (risk_engine_pricing _ _ _ _ _ _ _ Hyc Hp) as (q & _ & Hpr).
  apply pricing_skipreason in Hpr as [Hr _].
  unfold default_skipreason, last_reason.
  rewrite (bool_decide_eq_false_2 _ Hb).
  apply Z.leb_gt in Hoc. rewrite Hoc. cbn [andb].
  rewrite Hr.
  destruct (risk_rule p); [by rewrite andb_false_r |].
  destruct (return_rule a yc p); [by rewrite andb_false_r |].
  destruct (stoploss_rule a p); [by rewrite andb_false_r |].
  by destruct (ordershares p =? 0).
Qed.

(** *** C1: the worked example *)

(** C1, as amended.  At price 100, recent high 105, recent low 95,
    yesterday's close 98, family Momentum with average return 0.02,
    cash 50000, trade capital 5000, bandwagon factor 1, risk ratio
    0.004 and 3 positions held: familyReturn 0.016, floorPct 0.008,
    floor price 99.2, ceiling 102 with no clamp, 50 shares to start
    with.  The floor price 99.2 is above the recent low 95, so the
    stop-loss rule fires and sets the shares to 0; the floor is not
    widened, tradeRiskAmt is 0 (not 40), tradeRiskPct 0.008, buyLimit
    100.1, tradeReturn 19/1001 (about 0.01898).  The return rule fires
    next and its reason replaces the stop-loss one; the risk rule does
    not fire.  The stock is skipped with 0 shares and the reason of
    the return rule. *)
Theorem risk_engine_example :
  ∃ p s' r,
    session_start acct = Ok start
    ∧ (cash start == 50000)%Q ∧ (tradecapital start == 5000)%Q
    ∧ (maxriskamt 1 start == 200)%Q
    ∧ closeprices tables !! "AAA" = Some 98%Q
    ∧ aaa_plan = Ok p
    ∧ (familyret p == 0.016)%Q ∧ (floorpct p == 0.008)%Q
    ∧ (price aaa * (1 - floorpct p) == 99.2)%Q
    ∧ stoploss_rule aaa p = true
    ∧ (ceilingprice p == 102)%Q ∧ fgt (ceilingprice p) (recenthigh aaa) = false
    ∧ int_of_float (tradecapital start / price aaa) = 50
    ∧ (floorprice p == 99.2)%Q
    ∧ (traderiskamt p == 0)%Q ∧ (traderiskpct p == 0.008)%Q
    ∧ (buylimit p == 100.1)%Q
    ∧ (traderet p == 19 # 1001)%Q
    ∧ (0.01898 < traderet p)%Q ∧ (traderet p < 0.01899)%Q
    ∧ return_rule aaa 98 p = true ∧ risk_rule p = false
    ∧ ordershares p = 0
    ∧ skipreason p = "The potential return has already been met today."
    ∧ aaa_pass 3 = Ok s'
    ∧ boughtlist s' = [] ∧ skiplist s' = ["AAA"] ∧ orders s' = []
    ∧ status s' !! "AAA" = Some r
    ∧ Decision r = "skip" ∧ OrderShares r = 0 ∧ (TradeRiskAmt r == 0)%Q
    ∧ Reason r
      = "The potential return has already been met today.; not eligible for retry.".
Proof.
  let v := eval vm_compute in aaa_plan in
  match v with Ok ?p => exists p end.
  let v := eval vm_compute in (aaa_pass 3) in
  match v with Ok ?s => exists s;
    let w := eval vm_compute in (status s !! "AAA") in
    match w with Some ?r => exists r end
  end.
  split_and!; vm_compute; reflexivity.
Qed.

(** C1 as stated fails at its own input: the risk amount the block
    ends with is 0, not 40, and the stop-loss rule does fire. *)
Lemma risk_engine_example_counterexample :
  field (λ p, Qred (traderiskamt p)) aaa_plan = Some 0%Q
  ∧ field (stoploss_rule aaa) aaa_plan = Some true
  ∧ field (λ s, Qred ∘ TradeRiskAmt <$> status s !! "AAA") (aaa_pass 3)
    = Some (Some 0%Q).
Proof. vm_compute. repeat split. Qed.

(** *** C3: ten or more positions *)

Lemma too_many_positions_unchanged E n logtime b stock a s s' :
  10 ≤ positions b →
  process_stock E n logtime b stock a s = Ok s' → s' = s.
Proof.
  intros Hc H. apply Z.ltb_ge in Hc.
  apply process_stock_inv in H as [-> | (_ & Hlt & _)]; [done |].
  apply Z.ltb_lt in Hlt. congruence.
Qed.

(** The reason a skip row is written with is never the one of line 312. *)
Lemma skip_reason_not_too_many E n logtime b stock a s s' k r :
  process_stock E n logtime b stock a s = Ok s' →
  status s' !! k = Some r →
  status s !! k = Some r
  ∨ Decision r = "buy"
  ∨ Reason r ≠ "Too many existing positions; not eligible for retry.".
Proof.
  intros H Hk.
  apply process_stock_inv in H as [-> | (Hel & Hc & p & Hp & H)]; [by left |].
  assert (Hsr : skipreason p = "Risk outweighs reward"
              ∨ skipreason p = "The potential return has already been met today."
              ∨ skipreason p = "Proposed stop-loss price already hit today"
              ∨ skipreason p = "Unknown").
  { unfold risk_engine in Hp.
    apply bind_Ok in Hp as (yc & _ & Hp). apply bind_Ok in Hp as (q & _ & Hp).
    apply pricing_skipreason in Hp as [-> _].
    destruct (risk_rule p); [by left |].
    destruct (return_rule a yc p); [by right; left |].
    destruct (stoploss_rule a p); [by right; right; left | by right; right; right]. }
  apply place_or_skip_inv in H
    as (_ & _ & _ & _ &
        [(_ & _ & _ & _ & r0 & Hr & Hst)
        |[(_ & _ & _ & _ & [[_ Hst] | (r0 & Hr & Hst)])
        |[(_ & _ & _ & _ & _ & r0 & Hr & Hst)
        |(_ & _ & ->)]]]).
  - rewrite Hst in Hk. destruct (decide (stock = k)) as [-> | Hne].
    + rewrite lookup_insert_eq in Hk. injection Hk as <-.
      apply status_row_inv in Hr. right; left. tauto.
    + rewrite lookup_insert_ne in Hk by done. by left.
  - left. by rewrite <- Hst.
  - rewrite Hst in Hk. destruct (decide (stock = k)) as [-> | Hne].
    + rewrite lookup_insert_eq in Hk. injection Hk as <-.
      apply status_row_inv in Hr as (_ & _ & _ & _ & _ & ->).
      right; right.
      destruct Hsr as [-> | [-> | [-> | ->]]]; vm_compute; discriminate.
    + rewrite lookup_insert_ne in Hk by done. by left.
  - rewrite Hst in Hk. destruct (decide (stock = k)) as [-> | Hne].
    + rewrite lookup_insert_eq in Hk. injection Hk as <-.
      apply status_row_inv in Hr as (_ & _ & _ & _ & _ & ->).
      right; right. unfold default_skipreason.
      apply Z.leb_gt in Hc. rewrite Hc. cbn [andb].
      destruct Hsr as [-> | [-> | [-> | ->]]];
        destruct (ordershares p =? 0); destruct (bool_decide (k ∈ boughtlist s));
        vm_compute; discriminate.
    + rewrite lookup_insert_ne in Hk by done. by left.
  - by left.
Qed.

(** C3, the failing call.  AAA is handled with exactly 10 positions
    held: the call returns the session it was given, with no status
    row for AAA (no Skip and no reason), AAA in neither list and no
    order, so AAA is evaluated again on the next pass; with 9
    positions held the same stock is skipped, with a reason.  Whatever
    the inputs, a call with 10 or more positions held that returns
    leaves the session as it was, and no call ever writes a skip row
    with the reason "Too many existing positions": lines 311-312
    assign it inside the branch that runs with fewer than 10
    positions only. *)
Theorem too_many_positions_not_skipped :
  aaa_pass 10 = Ok start
  ∧ field (λ s, (status s !! "AAA", skiplist s, boughtlist s, orders s))
          (aaa_pass 10)
    = Some (None, [], [], [])
  ∧ field (λ s, (Reason <$> status s !! "AAA", skiplist s)) (aaa_pass 9)
    = Some (Some "The potential return has already been met today.; not eligible for retry.", ["AAA"])
  ∧ (∀ E n logtime b stock a s s',
       10 ≤ positions b →
       process_stock E n logtime b stock a s = Ok s' → s' = s)
  ∧ (∀ E n logtime b stock a s s' k r,
       process_stock E n logtime b stock a s = Ok s' →
       status s' !! k = Some r →
       status s !! k = Some r
       ∨ Decision r = "buy"
       ∨ Reason r ≠ "Too many existing positions; not eligible for retry.").
Proof.
  split_and!; try (vm_compute; reflexivity).
  - apply too_many_positions_unchanged.
  - apply skip_reason_not_too_many.
Qed.

(** *** C4: the reason reported with a skip *)

(** C4, as amended.  When a stock is evaluated and its share count
    ends at 0 or below, the entry written for it is a skip whose
    reason is that of the rule that fired last in source order (risk,
    else return, else stop-loss), not first; when no rule fired it is
    the default reason if the share count is exactly 0, and "Unknown"
    if it is negative. *)
Theorem skip_reason_last_triggered E n logtime b stock a s yc p s' :
  eligible stock s → positions b < 10 →
  closeprices E !! stock = Some yc →
  risk_engine E n stock a s = Ok p → ordershares p ≤ 0 →
  process_stock E n logtime b stock a s = Ok s' →
  ∃ r, status s' !! stock = Some r
     ∧ Decision r = "skip" ∧ OrderShares r = ordershares p
     ∧ Reason r = last_reason a yc p +:+ "; not eligible for retry."
     ∧ stock ∈ skiplist s'.
Proof.
  intros Hel Hc Hyc Hp Hsh H.
  rewrite (process_stock_eval _ _ _ _ _ _ _ _ Hel Hc Hp) in H.
  destruct Hel as [Hb Hs].
  apply place_or_skip_inv in H
    as (_ & _ & _ & _ &
        [(Hpos & _) | [(Hpos & _)
        |[(_ & _ & _ & Hsk & _ & r & Hr & Hst) | (_ & Hin & _)]]]);
    [lia | lia | | done].
  exists r. apply status_row_inv in Hr as (_ & _ & _ & Ho & Hd & Hre).
  rewrite Hst, lookup_insert_eq, Hsk.
  rewrite (default_skipreason_last _ _ _ _ _ _ _ _ Hyc Hp Hb Hc) in Hre.
  split_and!; try done. apply elem_of_app. right. by apply list_elem_of_singleton.
Qed.

(** The theorem at CCC, where the stop-loss rule and then the risk
    rule fire. *)
Lemma skip_reason_last_triggered_witness :
  ∃ r, status (state_of ccc_pass empty_session) !! "CCC" = Some r
     ∧ Decision r = "skip" ∧ OrderShares r = ordershares (plan_of ccc_plan)
     ∧ Reason r
       = last_reason ccc 101 (plan_of ccc_plan) +:+ "; not eligible for retry."
     ∧ "CCC" ∈ skiplist (state_of ccc_pass empty_session).
Proof.
  apply (skip_reason_last_triggered tables 1 now (held 3 true) "CCC" ccc start
           101 (plan_of ccc_plan) (state_of ccc_pass empty_session)).
  - split; apply not_elem_of_nil.
  - reflexivity.
  - reflexivity.
  - vm_compute. reflexivity.
  - vm_compute. discriminate.
  - vm_compute. reflexivity.
Defined.

(** C4 as stated fails.  For CCC the stop-loss rule fires first and
    the risk rule after it, and the reason written is the later one.
    For BBB on an account whose cash is negative the share count is -5,
    no rule fires, and the reason written is "Unknown". *)
Lemma skip_reason_counterexample :
  field (stoploss_rule ccc) ccc_plan = Some true
  ∧ field risk_rule ccc_plan = Some true
  ∧ field (λ s, Reason <$> status s !! "CCC") ccc_pass
    = Some (Some "Risk outweighs reward; not eligible for retry.")
  ∧ field (λ s, (OrderShares <$> status s !! "BBB", Reason <$> status s !! "BBB"))
      (s ← session_start
             {| buying_power := 20000; multiplier := 1; account_cash := 20000 |};
       process_stock tables 1 now (held 3 true) "BBB" bbb s)
    = Some (Some (-5), Some "Unknown; not eligible for retry.").
Proof. vm_compute. repeat split. Qed.

(** *** C6: the bought/skip file *)

(** What a pass leaves in broker-buyskip.json is the dump of [status];
    the dict of the two lists built just before is dropped. *)
Lemma tick_buyskipfile E t s s' :
  tick E t s = Ok s' →
  buyskipfile s' = JsonDumps (StatusDict (status s'))
  ∧ buyskipfile s' ≠ JsonDumps (BuySkipDict (boughtlist s') (skiplist s')).
Proof.
  unfold tick. intros H. apply bind_Ok in H as (s1 & _ & [= <-]).
  split; [reflexivity | discriminate].
Qed.

(** C6, the failing pass.  A pass over a batch holding BBB, whose
    order the broker refuses, ends with both lists empty; the file
    holds the dump of [status], in which BBB is a "skip", and not the
    record of the two lists. *)
Theorem buyskipfile_after_refused_order :
  ∃ s', tick tables refused_tick start = Ok s'
      ∧ boughtlist s' = [] ∧ skiplist s' = []
      ∧ buyskipfile s' = JsonDumps (StatusDict (status s'))
      ∧ buyskipfile s' ≠ JsonDumps (BuySkipDict (boughtlist s') (skiplist s'))
      ∧ Decision <$> status s' !! "BBB" = Some "skip"
      ∧ statusfile s' = CsvDump fieldnames (status s').
Proof.
  let v := eval vm_compute in (tick tables refused_tick start) in
  match v with Ok ?s => exists s end.
  split_and!; try (vm_compute; reflexivity). discriminate.
Qed.

(** *** C7 and C8: the two lists *)

Lemma occurrences_app x l1 l2 :
  occurrences x (l1 ++ l2) = (occurrences x l1 + occurrences x l2)%nat.
Proof. unfold occurrences. by rewrite filter_app, length_app. Qed.

Lemma occurrences_absent x l : x ∉ l → occurrences x l = 0%nat.
Proof.
  unfold occurrences. induction l as [|y l IH]; [done |].
  intros Hx. apply not_elem_of_cons in Hx as [Hne Hx].
  rewrite filter_cons_False by congruence. by apply IH.
Qed.

Lemma occurrences_present x l : (0 < occurrences x l)%nat → x ∈ l.
Proof.
  intros H. destruct (decide (x ∈ l)) as [|Hn]; [done |].
  rewrite (occurrences_absent _ _ Hn) in H. lia.
Qed.

Lemma occurrences_other x y l :
  x ≠ y → occurrences x (l ++ [y]) = occurrences x l.
Proof.
  intros Hne. rewrite occurrences_app.
  rewrite (occurrences_absent x [y]); [lia |].
  by intros ->%list_elem_of_singleton.
Qed.

Lemma occurrences_self x : occurrences x [x] = 1%nat.
Proof. unfold occurrences. by rewrite filter_cons_True. Qed.

(** A step never changes how often a listed ticker occurs in the skip list. *)
Lemma step_keeps_occurrences E s s' x :
  step E s s' → (0 < occurrences x (skiplist s))%nat →
  occurrences x (skiplist s') = occurrences x (skiplist s).
Proof.
  intros Hst Hx. apply occurrences_present in Hx.
  apply step_effect in Hst
    as (_ & _ & [[_ ->] | [(y & _ & _ & ->) | (y & [_ Hy] & _ & ->)]] & _);
    try done.
  apply occurrences_other. by intros ->.
Qed.

Lemma steps_keep_occurrences E s s' x :
  rtc (step E) s s' → (0 < occurrences x (skiplist s))%nat →
  occurrences x (skiplist s') = occurrences x (skiplist s).
Proof.
  induction 1 as [|s s1 s2 Hst _ IH]; [done |]. intros Hx.
  pose proof (step_keeps_occurrences _ _ _ _ Hst Hx) as H1.
  rewrite IH by lia. done.
Qed.

(** X23.  For a stock that is evaluated with fewer than 10 positions
    held: if the block ends with a positive share count and the broker
    refuses the order, the stock is in neither list afterwards, so the
    next pass evaluates it again; if the block ends with a share count
    of 0 or below (a skip), the stock is in the skip list once, and
    stays in it exactly once in every later state of the session. *)
Theorem failed_order_retried_skip_once E n logtime b stock a s p s' :
  eligible stock s → positions b < 10 →
  risk_engine E n stock a s = Ok p →
  process_stock E n logtime b stock a s = Ok s' →
  (0 < ordershares p → accepts b = false → eligible stock s')
  ∧ (ordershares p ≤ 0 →
     occurrences stock (skiplist s') = 1%nat
     ∧ ∀ s'', rtc (step E) s' s'' → occurrences stock (skiplist s'') = 1%nat).
Proof.
  intros Hel Hc Hp H.
  rewrite (process_stock_eval _ _ _ _ _ _ _ _ Hel Hc Hp) in H.
  destruct Hel as [Hb Hs].
  apply place_or_skip_inv in H
    as (_ & _ & _ & _ &
        [(Hpos & Hacc & _) | [(Hpos & _ & Hbl & Hsl & _)
        |[(Hsh & _ & _ & Hsl & _) | (_ & Hin & _)]]]); [| | | done].
  - split; [congruence | lia].
  - split; [| lia]. intros _ _. split; by rewrite ?Hbl, ?Hsl.
  - split; [lia |]. intros _.
    assert (occurrences stock (skiplist s') = 1%nat) as H1.
    { rewrite Hsl, occurrences_app, occurrences_self,
        (occurrences_absent _ _ Hs). done. }
    split; [done |]. intros s'' Hrtc.
    rewrite (steps_keep_occurrences _ _ _ _ Hrtc); [done | lia].
Qed.

(** The theorem at BBB with the order refused, and at AAA, which is
    skipped. *)
Lemma failed_order_retried_skip_once_witness :
  eligible "BBB" (state_of (bbb_pass false) empty_session)
  ∧ occurrences "AAA" (skiplist (state_of (aaa_pass 3) empty_session)) = 1%nat.
Proof.
  assert (eligible "BBB" start ∧ eligible "AAA" start) as [Hb Ha].
  { repeat split; apply not_elem_of_nil. }
  split.
  - refine (proj1 (failed_order_retried_skip_once tables 1 now (held 3 false)
             "BBB" bbb start (plan_of (risk_engine tables 1 "BBB" bbb start))
             (state_of (bbb_pass false) empty_session) Hb _ _ _) _ _).
    + reflexivity.
    + vm_compute. reflexivity.
    + vm_compute. reflexivity.
    + vm_compute. reflexivity.
    + reflexivity.
  - refine (proj1 (proj2 (failed_order_retried_skip_once tables 1 now
             (held 3 true) "AAA" aaa start (plan_of aaa_plan)
             (state_of (aaa_pass 3) empty_session) Ha _ _ _) _)).
    + reflexivity.
    + vm_compute. reflexivity.
    + vm_compute. reflexivity.
    + vm_compute. discriminate.
Defined.

(** C7, the failing pass.  AAA is handled with exactly 10 positions
    held, the case in which the skip of lines 305-317 was meant to
    give the reason "Too many existing positions": the call returns
    with AAA in the skip list 0 times and in the bought list 0 times,
    so AAA passes the guard of line 149 again on the next pass.  With
    3 positions held the same stock is in the skip list once, and BBB,
    whose order the broker refuses, is in neither list. *)
Theorem skip_at_ten_positions_not_listed :
  field (λ s, (occurrences "AAA" (skiplist s), occurrences "AAA" (boughtlist s)))
        (aaa_pass 10)
    = Some (0%nat, 0%nat)
  ∧ eligible "AAA" (state_of (aaa_pass 10) empty_session)
  ∧ field (λ s, occurrences "AAA" (skiplist s)) (aaa_pass 3) = Some 1%nat
  ∧ eligible "BBB" (state_of (bbb_pass false) empty_session).
Proof.
  split_and!; try (vm_compute; reflexivity).
  - split; vm_compute; intros H; inversion H.
  - split; vm_compute; intros H; inversion H.
Qed.

Lemma step_exclusive E s s' : step E s s' → exclusive s → exclusive s'.
Proof.
  intros Hst Hex x [Hb Hs].
  apply step_effect in Hst
    as (_ & _ & [[Hbl Hsl] | [(y & [Hyb Hys] & Hbl & Hsl)
                             | (y & [Hyb Hys] & Hbl & Hsl)]] & _);
    rewrite Hbl in Hb; rewrite Hsl in Hs.
  - by apply (Hex x).
  - apply elem_of_app in Hb as [Hb | ->%list_elem_of_singleton];
      [by apply (Hex x) | done].
  - apply elem_of_app in Hs as [Hs | ->%list_elem_of_singleton];
      [by apply (Hex x) | done].
Qed.

(** C8.  In every state a session can reach, no ticker is in the
    bought list and in the skip list at once. *)
Theorem bought_skip_exclusive E s : reachable E s → exclusive s.
Proof.
  intros (acct0 & s0 & H0 & Hrtc).
  revert s Hrtc. apply rtc_ind_r.
  - unfold session_start in H0.
    apply bind_Ok in H0 as (q & _ & [= <-]).
    intros x [Hb _]. simpl in Hb. by apply elem_of_nil in Hb.
  - intros s1 s2 _ Hst IH. by eapply step_exclusive.
Qed.

Lemma reachable_after_aaa :
  reachable tables (state_of (aaa_pass 3) empty_session).
Proof.
  exists acct, start. split; [vm_compute; reflexivity |].
  eapply rtc_l; [| apply rtc_refl].
  apply (step_stock tables 1 now (held 3 true) "AAA" aaa).
  vm_compute. reflexivity.
Defined.

(** The theorem at the session in which AAA was skipped. *)
Lemma bought_skip_exclusive_witness :
  exclusive (state_of (aaa_pass 3) empty_session).
Proof.
  apply (bought_skip_exclusive tables). apply reachable_after_aaa.
Defined.

(** *** C10: cash and trade capital *)

Lemma steps_keep_cash E s s' :
  rtc (step E) s s' →
  (∀ k r, status s !! k = Some r →
     Cash r = cash s ∧ TradeCapital r = tradecapital s) →
  cash s' = cash s ∧ tradecapital s' = tradecapital s
  ∧ (∀ k r, status s' !! k = Some r →
       Cash r = cash s ∧ TradeCapital r = tradecapital s).
Proof.
  intros Hrtc H0. revert s' Hrtc. apply rtc_ind_r; [done |].
  intros s1 s2 _ Hst (Hc & Ht & Hrows).
  apply step_effect in Hst as (Hc2 & Ht2 & _ & Hnew).
  split_and!; [congruence | congruence |].
  intros k r Hk. destruct (Hnew k r Hk) as [Hold | [H1 H2]].
  - by apply (Hrows k).
  - split; congruence.
Qed.

(** C10.  The session starts with cash = buying power / multiplier -
    25001, whatever the account's own cash field says, and trade
    capital = cash / 10; no step changes either, so every risk ceiling
    is computed from that cash, and every status entry written during
    the session carries these two values. *)
Theorem cash_and_tradecapital_fixed E acct0 s0 s :
  session_start acct0 = Ok s0 → rtc (step E) s0 s →
  cash s0 = (buying_power acct0 / multiplier acct0 - 25001)%Q
  ∧ tradecapital s0 = (cash s0 / 10)%Q
  ∧ (∀ c, session_start {| buying_power := buying_power acct0;
                           multiplier := multiplier acct0;
                           account_cash := c |} = Ok s0)
  ∧ cash s = cash s0 ∧ tradecapital s = tradecapital s0
  ∧ (∀ n, maxriskamt n s = (cash s0 * maxriskratio * bandwagondiscount n)%Q)
  ∧ (∀ k r, status s !! k = Some r →
       Cash r = cash s0 ∧ TradeCapital r = tradecapital s0).
Proof.
  intros H0 Hrtc.
  destruct (steps_keep_cash _ _ _ Hrtc) as (Hc & Ht & Hrows).
  { unfold session_start in H0. apply bind_Ok in H0 as (q & _ & [= <-]).
    intros k r Hk. simpl in Hk. by rewrite lookup_empty in Hk. }
  unfold session_start in H0.
  destruct (fdiv (buying_power acct0) (multiplier acct0)) as [q|e] eqn:Hq;
    [| discriminate].
  cbn [mbind result_bind] in H0.
  apply fdiv_inv in Hq as [Hm ->].
  split_and!; try done.
  - by injection H0 as <-.
  - by injection H0 as <-.
  - intros c. unfold session_start. cbn [buying_power multiplier].
    by rewrite (fdiv_Ok _ _ Hm).
  - intros n. unfold maxriskamt. by rewrite Hc.
Qed.

(** The theorem at the account that starts with cash 50000 and the
    session in which AAA was skipped. *)
Lemma cash_and_tradecapital_fixed_witness :
  cash start = (buying_power acct / multiplier acct - 25001)%Q
  ∧ tradecapital start = (cash start / 10)%Q
  ∧ (∀ c, session_start {| buying_power := buying_power acct;
                           multiplier := multiplier acct;
                           account_cash := c |} = Ok start)
  ∧ cash (state_of (aaa_pass 3) empty_session) = cash start
  ∧ tradecapital (state_of (aaa_pass 3) empty_session) = tradecapital start
  ∧ (∀ n, maxriskamt n (state_of (aaa_pass 3) empty_session)
          = (cash start * maxriskratio * bandwagondiscount n)%Q)
  ∧ (∀ k r, status (state_of (aaa_pass 3) empty_session) !! k = Some r →
       Cash r = cash start ∧ TradeCapital r = tradecapital start).
Proof.
  apply (cash_and_tradecapital_fixed tables acct start
           (state_of (aaa_pass 3) empty_session)).
  - vm_compute. reflexivity.
  - eapply rtc_l; [| apply rtc_refl].
    apply (step_stock tables 1 now (held 3 true) "AAA" aaa).
    vm_compute. reflexivity.
Defined.

(** *** Listed tickers *)

Lemma step_keeps_listed E s s' x :
  step E s s' →
  (x ∈ boughtlist s → x ∈ boughtlist s') ∧ (x ∈ skiplist s → x ∈ skiplist s').
Proof.
  intros Hst.
  apply step_effect in Hst
    as (_ & _ & [[-> ->] | [(y & _ & -> & ->) | (y & _ & -> & ->)]] & _);
    split; intros Hx; try done; apply elem_of_app; by left.
Qed.

(** X2.  A ticker in the bought list or in the skip list stays there for
    the rest of the session, and the loop body leaves the session as it
    is when it meets such a ticker: it is not priced again and no order
    is placed for it. *)
Theorem listed_ticker_is_final E s s' x :
  rtc (step E) s s' →
  (x ∈ boughtlist s → x ∈ boughtlist s')
  ∧ (x ∈ skiplist s → x ∈ skiplist s')
  ∧ (x ∈ boughtlist s ∨ x ∈ skiplist s →
     ∀ n logtime b a, process_stock E n logtime b x a s' = Ok s').
Proof.
  intros Hrtc.
  assert ((x ∈ boughtlist s → x ∈ boughtlist s')
          ∧ (x ∈ skiplist s → x ∈ skiplist s')) as [Hb Hs].
  { revert s' Hrtc. apply rtc_ind_r; [done |].
    intros s1 s2 _ Hst [Hb Hs].
    destruct (step_keeps_listed _ _ _ x Hst) as [Hb' Hs']. split; auto. }
  split_and!; try done.
  intros Hx n logtime b a. unfold process_stock.
  rewrite bool_decide_eq_false_2; [done |].
  intros [Hnb Hns]. destruct Hx as [Hx | Hx]; auto.
Qed.

(** The theorem at AAA once it has been skipped. *)
Lemma listed_ticker_is_final_witness :
  ("AAA" ∈ boughtlist (state_of (aaa_pass 3) empty_session) →
   "AAA" ∈ boughtlist (state_of (aaa_pass 3) empty_session))
  ∧ ("AAA" ∈ skiplist (state_of (aaa_pass 3) empty_session) →
     "AAA" ∈ skiplist (state_of (aaa_pass 3) empty_session))
  ∧ ("AAA" ∈ boughtlist (state_of (aaa_pass 3) empty_session)
     ∨ "AAA" ∈ skiplist (state_of (aaa_pass 3) empty_session) →
     ∀ n logtime b a,
       process_stock tables n logtime b "AAA" a
         (state_of (aaa_pass 3) empty_session)
       = Ok (state_of (aaa_pass 3) empty_session)).
Proof.
  apply (listed_ticker_is_final tables (state_of (aaa_pass 3) empty_session)
           (state_of (aaa_pass 3) empty_session) "AAA").
  apply rtc_refl.
Defined.

End TraderFacts.

(** ** More on the classifier: the rows kept and the other vote columns *)

Module VoteTableFacts.
Import Classifier Readings Frames ClassifierFacts.

Lemma mapM_Ok_Forall2 {A B} (f : A → result B) (l : list A) (out : list B) :
  mapM f l = Ok out → Forall2 (λ x y, f x = Ok y) l out.
Proof.
  revert out. induction l as [|x l IH]; intros out Hm; simpl in Hm.
  - injection Hm as <-. constructor.
  - apply bind_Ok in Hm as (y & Hy & Hm).
    apply bind_Ok in Hm as (k & Hk & [= <-]).
    constructor; [done | by apply IH].
Qed.

Lemma set_strategy_id_votes (l : list voted) (out : list classified) :
  mapM set_strategy_id l = Ok out → votes <$> out = l.
Proof.
  intros Hm. apply mapM_Ok_Forall2 in Hm.
  induction Hm as [|v c l out Hv _ IH]; [done |].
  unfold set_strategy_id in Hv. apply bind_Ok in Hv as (sid & _ & [= <-]).
  cbn [fmap list_fmap votes]. by f_equal.
Qed.

Lemma filter_imap_ind (f : nat → bar → voted) (l : list bar) :
  (∀ i r, ind (f i r) = r) →
  ind <$> filter (λ v, notna (ind v)) (imap f l) = filter notna l.
Proof.
  revert f. induction l as [|r l IH]; intros f Hf; [done |].
  rewrite imap_cons.
  destruct (decide (notna r)) as [Hr | Hr].
  - rewrite filter_cons_True by (by rewrite Hf).
    rewrite (filter_cons_True notna) by done.
    cbn [fmap list_fmap]. rewrite Hf. f_equal. apply IH. intros i r'. apply Hf.
  - rewrite filter_cons_False by (by rewrite Hf).
    rewrite (filter_cons_False notna) by done.
    apply IH. intros i r'. apply Hf.
Qed.

(** X3.  What [calcind] returns is, in the order of the frame, exactly
    the rows whose thirteen subset columns are all defined, each with
    the votes computed at its place in the whole frame, before any row
    was dropped.  TRIX30 is not in the subset: a row whose TRIX is NaN
    is kept. *)
Theorem calcind_keeps_defined_rows (df : list bar) (out : list classified) :
  calcind df = Ok (Some out) →
  votes <$> out = filter (λ v, notna (ind v)) (imap (with_votes df) df)
  ∧ (λ c, ind (votes c)) <$> out = filter notna df
  ∧ length out = length (filter notna df)
  ∧ (∀ r, r ∈ df → notna r → TRIX30 r = None →
       ∃ c, c ∈ out ∧ ind (votes c) = r ∧ TRIXVOTE (votes c) = 0).
Proof.
  intros Hc. unfold calcind in Hc.
  destruct df as [|r0 df0] eqn:Hdf; [discriminate |]. rewrite <- Hdf in *.
  apply bind_Ok in Hc as (out0 & Hm & [= ->]).
  pose proof (set_strategy_id_votes _ _ Hm) as Hv. unfold dropna in Hv.
  assert ((λ c, ind (votes c)) <$> out = filter notna df) as Hind.
  { rewrite <- (filter_imap_ind (with_votes df) df) by done.
    rewrite <- Hv. by rewrite <- list_fmap_compose. }
  split_and!; try done.
  - by rewrite <- Hind, length_fmap.
  - intros r Hr Hna Htrix.
    assert (r ∈ (λ c, ind (votes c)) <$> out) as Hin.
    { rewrite Hind. by apply list_elem_of_filter. }
    apply list_elem_of_fmap in Hin as (c & -> & Hc).
    exists c. split_and!; try done.
    assert (votes c ∈ votes <$> out) as Hvc by (by apply list_elem_of_fmap_2).
    rewrite Hv in Hvc. apply list_elem_of_filter in Hvc as [_ Hvc].
    apply elem_of_lookup_imap in Hvc as (i & r' & Heq & Hi).
    rewrite Heq in *. cbn [ind with_votes TRIXVOTE] in *.
    unfold TRIXVOTE_col, loc_assign, const_col.
    rewrite list_lookup_total_alt, !lookup_zip_with, !list_lookup_fmap, Hi.
    cbn. by rewrite Htrix.
Qed.

(** The theorem at a frame of three rows whose middle row is inside
    the warm-up window. *)
Lemma calcind_keeps_defined_rows_witness :
  votes <$> returned (calcind three_rows)
    = filter (λ v, notna (ind v))
        (imap (with_votes three_rows) three_rows)
  ∧ (λ c, ind (votes c)) <$> returned (calcind three_rows)
    = filter notna three_rows
  ∧ length (returned (calcind three_rows))
    = length (filter notna three_rows)
  ∧ (∀ r, r ∈ three_rows → notna r → TRIX30 r = None →
       ∃ c, c ∈ returned (calcind three_rows)
          ∧ ind (votes c) = r ∧ TRIXVOTE (votes c) = 0).
Proof.
  apply (calcind_keeps_defined_rows three_rows
           (returned (calcind three_rows))).
  vm_compute. reflexivity.
Defined.

(** *** The other vote columns, row by row *)

Lemma two_assign_lookup (df : list bar) (f1 f2 : bar → bool) (v1 v2 : Z)
    (i : nat) :
  loc_assign (f2 <$> df) v2 (loc_assign (f1 <$> df) v1 (const_col df 0)) !! i
  = (λ r, if f2 r then v2 else if f1 r then v1 else 0) <$> df !! i.
Proof.
  unfold loc_assign, const_col.
  rewrite !lookup_zip_with, !list_lookup_fmap.
  destruct (df !! i); reflexivity.
Qed.

Lemma two_assign_total (df : list bar) (f1 f2 : bar → bool) (v1 v2 : Z)
    (i : nat) (r : bar) :
  df !! i = Some r →
  loc_assign (f2 <$> df) v2 (loc_assign (f1 <$> df) v1 (const_col df 0)) !!! i
  = if f2 r then v2 else if f1 r then v1 else 0.
Proof.
  intros Hr. apply list_lookup_total_correct.
  by rewrite two_assign_lookup, Hr.
Qed.

Lemma le_iff (x y : Q) : le (Some x) (Some y) = true ↔ (x <= y)%Q.
Proof. apply Qle_bool_iff. Qed.

Lemma lt_iff (x y : Q) : lt (Some x) (Some y) = true ↔ (x < y)%Q.
Proof. apply Qlt_bool_iff. Qed.

Lemma le_false_iff (x y : Q) : le (Some x) (Some y) = false ↔ (y < x)%Q.
Proof.
  rewrite <- not_true_iff_false, le_iff.
  split; [apply Qnot_le_lt | apply Qlt_not_le].
Qed.

Lemma lt_false_iff (x y : Q) : lt (Some x) (Some y) = false ↔ (y <= x)%Q.
Proof.
  rewrite <- not_true_iff_false, lt_iff.
  split; [apply Qnot_lt_le | apply Qle_not_lt].
Qed.

(** Decide every comparison of cells in the goal, and leave linear
    arithmetic over the rationals. *)
Ltac cell_cases :=
  unfold ge, gt, num;
  repeat match goal with
  | |- context [le (Some ?x) (Some ?y)] =>
      let H := fresh "Hc" in
      destruct (le (Some x) (Some y)) eqn:H;
      [apply le_iff in H | apply le_false_iff in H]
  | |- context [lt (Some ?x) (Some ?y)] =>
      let H := fresh "Hc" in
      destruct (lt (Some x) (Some y)) eqn:H;
      [apply lt_iff in H | apply lt_false_iff in H]
  end;
  cbn [andb];
  repeat split; intros; try discriminate; try lra;
  repeat match goal with
  | H : _ ∧ _ |- _ => destruct H
  end; try lra.

Lemma notna_cells (r : bar) :
  notna r →
  ∃ up dn bop cci cmo hist ppo rsi k d rk rd ad,
    AROONUP r = Some up ∧ AROONDN r = Some dn ∧ BOP r = Some bop
    ∧ CCI14 r = Some cci ∧ CMO14 r = Some cmo ∧ MACDHIST r = Some hist
    ∧ PPO12 r = Some ppo ∧ RSI14 r = Some rsi ∧ STOCHK r = Some k
    ∧ STOCHD r = Some d ∧ STOCHRSIK r = Some rk ∧ STOCHRSID r = Some rd
    ∧ ADOSC r = Some ad.
Proof.
  unfold notna, dropna_subset. rewrite !Forall_cons.
  intros ([up ?] & [dn ?] & [bop ?] & [cci ?] & [cmo ?] & [hist ?] & [ppo ?]
          & [rsi ?] & [k ?] & [d ?] & [rk ?] & [rd ?] & [ad ?] & _).
  exists up, dn, bop, cci, cmo, hist, ppo, rsi, k, d, rk, rd, ad.
  by split_and!.
Qed.

(** X4.  For every row that [calcind] returns, the oscillator votes
    follow the overbought and oversold levels: RSI votes +1 exactly at
    30 or below and -1 exactly at 70 or above; the stochastic and the
    stochastic RSI vote +1 exactly when %K and %D are both at 20 or
    below and -1 exactly when both are at 80 or above; CMO votes +1
    exactly below -50 and -1 exactly above +50, the levels themselves
    voting 0. *)
Theorem oscillator_votes (df : list bar) (out : list classified)
    (c : classified) :
  calcind df = Ok (Some out) → c ∈ out →
  ∃ rsi k d rk rd cmo,
    RSI14 (ind (votes c)) = Some rsi
    ∧ STOCHK (ind (votes c)) = Some k ∧ STOCHD (ind (votes c)) = Some d
    ∧ STOCHRSIK (ind (votes c)) = Some rk ∧ STOCHRSID (ind (votes c)) = Some rd
    ∧ CMO14 (ind (votes c)) = Some cmo
    ∧ (RSIVOTE (votes c) = 1 ↔ (rsi <= 30)%Q)
    ∧ (RSIVOTE (votes c) = -1 ↔ (70 <= rsi)%Q)
    ∧ (STOCHVOTE (votes c) = 1 ↔ (k <= 20)%Q ∧ (d <= 20)%Q)
    ∧ (STOCHVOTE (votes c) = -1 ↔ (80 <= k)%Q ∧ (80 <= d)%Q)
    ∧ (STOCHRSIVOTE (votes c) = 1 ↔ (rk <= 20)%Q ∧ (rd <= 20)%Q)
    ∧ (STOCHRSIVOTE (votes c) = -1 ↔ (80 <= rk)%Q ∧ (80 <= rd)%Q)
    ∧ (CMOVOTE (votes c) = 1 ↔ (cmo < -50)%Q)
    ∧ (CMOVOTE (votes c) = -1 ↔ (50 < cmo)%Q).
Proof.
  intros Hc Hin.
  destruct (calcind_elem df out c Hc Hin) as (i & r & Hr & Hna & ->).
  destruct (notna_cells r Hna)
    as (up & dn & bop & cci & cmo & hist & ppo & rsi & k & d & rk & rd & ad
        & _ & _ & _ & _ & Hcmo & _ & _ & Hrsi & Hk & Hd & Hrk & Hrd & _).
  exists rsi, k, d, rk, rd, cmo.
  cbn [ind with_votes RSIVOTE STOCHVOTE STOCHRSIVOTE CMOVOTE].
  unfold RSIVOTE_col, STOCHVOTE_col, STOCHRSIVOTE_col, CMOVOTE_col.
  cbn zeta. rewrite !(two_assign_total df _ _ _ _ i r Hr).
  rewrite Hrsi, Hk, Hd, Hrk, Hrd, Hcmo.
  split_and!; try done; cell_cases.
Qed.

(** The theorem at a frame of one oversold row. *)
Lemma oscillator_votes_witness :
  ∃ rsi k d rk rd cmo,
    RSI14 (ind (votes oversold_row)) = Some rsi
    ∧ STOCHK (ind (votes oversold_row)) = Some k
    ∧ STOCHD (ind (votes oversold_row)) = Some d
    ∧ STOCHRSIK (ind (votes oversold_row)) = Some rk
    ∧ STOCHRSID (ind (votes oversold_row)) = Some rd
    ∧ CMO14 (ind (votes oversold_row)) = Some cmo
    ∧ (RSIVOTE (votes oversold_row) = 1 ↔ (rsi <= 30)%Q)
    ∧ (RSIVOTE (votes oversold_row) = -1 ↔ (70 <= rsi)%Q)
    ∧ (STOCHVOTE (votes oversold_row) = 1 ↔ (k <= 20)%Q ∧ (d <= 20)%Q)
    ∧ (STOCHVOTE (votes oversold_row) = -1 ↔ (80 <= k)%Q ∧ (80 <= d)%Q)
    ∧ (STOCHRSIVOTE (votes oversold_row) = 1 ↔ (rk <= 20)%Q ∧ (rd <= 20)%Q)
    ∧ (STOCHRSIVOTE (votes oversold_row) = -1 ↔ (80 <= rk)%Q ∧ (80 <= rd)%Q)
    ∧ (CMOVOTE (votes oversold_row) = 1 ↔ (cmo < -50)%Q)
    ∧ (CMOVOTE (votes oversold_row) = -1 ↔ (50 < cmo)%Q).
Proof.
  apply (oscillator_votes oversold_frame [oversold_row] oversold_row).
  - vm_compute. reflexivity.
  - apply list_elem_of_singleton. reflexivity.
Defined.

(** X5.  For every row that [calcind] returns: the Aroon vote is +1
    exactly when the column AROONDN exceeds the column AROONUP by 25
    or more and -1 exactly when AROONUP exceeds AROONDN by 25 or more
    (the columns as lines 167-170 read them); BOP, TRIX and the A/D
    oscillator vote by sign, +1 exactly when positive and -1 exactly
    when negative; and a row whose TRIX is NaN, which is not dropped,
    has TRIX vote 0. *)
Theorem sign_votes (df : list bar) (out : list classified) (c : classified) :
  calcind df = Ok (Some out) → c ∈ out →
  ∃ up dn bop ad,
    AROONUP (ind (votes c)) = Some up ∧ AROONDN (ind (votes c)) = Some dn
    ∧ BOP (ind (votes c)) = Some bop ∧ ADOSC (ind (votes c)) = Some ad
    ∧ (AROONVOTE (votes c) = 1 ↔ (25 <= dn - up)%Q)
    ∧ (AROONVOTE (votes c) = -1 ↔ (25 <= up - dn)%Q)
    ∧ (BOPVOTE (votes c) = 1 ↔ (0 < bop)%Q)
    ∧ (BOPVOTE (votes c) = -1 ↔ (bop < 0)%Q)
    ∧ (ADOSCVOTE (votes c) = 1 ↔ (0 < ad)%Q)
    ∧ (ADOSCVOTE (votes c) = -1 ↔ (ad < 0)%Q)
    ∧ (∀ x, TRIX30 (ind (votes c)) = Some x →
         (TRIXVOTE (votes c) = 1 ↔ (0 < x)%Q)
         ∧ (TRIXVOTE (votes c) = -1 ↔ (x < 0)%Q))
    ∧ (TRIX30 (ind (votes c)) = None → TRIXVOTE (votes c) = 0).
Proof.
  intros Hc Hin.
  destruct (calcind_elem df out c Hc Hin) as (i & r & Hr & Hna & ->).
  destruct (notna_cells r Hna)
    as (up & dn & bop & cci & cmo & hist & ppo & rsi & k & d & rk & rd & ad
        & Hup & Hdn & Hbop & _ & _ & _ & _ & _ & _ & _ & _ & _ & Had).
  exists up, dn, bop, ad.
  cbn [ind with_votes AROONVOTE BOPVOTE ADOSCVOTE TRIXVOTE].
  unfold AROONVOTE_col, BOPVOTE_col, ADOSCVOTE_col, TRIXVOTE_col.
  cbn zeta. rewrite !(two_assign_total df _ _ _ _ i r Hr).
  unfold AROONOSC, sub. rewrite Hup, Hdn, Hbop, Had.
  split_and!; try done; try solve [cell_cases].
  - intros x Hx. rewrite Hx. cell_cases.
  - intros Hx. by rewrite Hx.
Qed.

(** The theorem at a frame of one oversold row. *)
Lemma sign_votes_witness :
  ∃ up dn bop ad,
    AROONUP (ind (votes oversold_row)) = Some up
    ∧ AROONDN (ind (votes oversold_row)) = Some dn
    ∧ BOP (ind (votes oversold_row)) = Some bop
    ∧ ADOSC (ind (votes oversold_row)) = Some ad
    ∧ (AROONVOTE (votes oversold_row) = 1 ↔ (25 <= dn - up)%Q)
    ∧ (AROONVOTE (votes oversold_row) = -1 ↔ (25 <= up - dn)%Q)
    ∧ (BOPVOTE (votes oversold_row) = 1 ↔ (0 < bop)%Q)
    ∧ (BOPVOTE (votes oversold_row) = -1 ↔ (bop < 0)%Q)
    ∧ (ADOSCVOTE (votes oversold_row) = 1 ↔ (0 < ad)%Q)
    ∧ (ADOSCVOTE (votes oversold_row) = -1 ↔ (ad < 0)%Q)
    ∧ (∀ x, TRIX30 (ind (votes oversold_row)) = Some x →
         (TRIXVOTE (votes oversold_row) = 1 ↔ (0 < x)%Q)
         ∧ (TRIXVOTE (votes oversold_row) = -1 ↔ (x < 0)%Q))
    ∧ (TRIX30 (ind (votes oversold_row)) = None →
       TRIXVOTE (votes oversold_row) = 0).
Proof.
  apply (sign_votes oversold_frame [oversold_row] oversold_row).
  - vm_compute. reflexivity.
  - apply list_elem_of_singleton. reflexivity.
Defined.

End VoteTableFacts.

(** ** ouro_lib.py: trend labels and signal matrix *)

Module LibFacts.
Import Classifier Lib.

Lemma label_lookup (adx : list cell) (i : nat) :
  ADXTREND_col adx !! i
  = (λ x, if ge x (num 75) then "Very Strong"
          else if ge x (num 50) then "Strong"
          else if ge x (num 25) then "Changing" else "Weak") <$> adx !! i.
Proof.
  unfold ADXTREND_col, loc_assign_label.
  rewrite !lookup_zip_with, !list_lookup_fmap.
  destruct (adx !! i); reflexivity.
Qed.

(** X6.  The trend label of a row is the highest bracket its ADX
    reaches: "Very Strong" from 75, "Strong" from 50 up to 75,
    "Changing" from 25 up to 50, "Weak" below 25 and for NaN; the label
    column has one label per row, and ADXR is labelled the same way. *)
Theorem trend_label_brackets (adx : list cell) (i : nat) (x : cell) :
  adx !! i = Some x →
  ∃ label,
    ADXTREND_col adx !! i = Some label
    ∧ ADXRTREND_col adx !! i = Some label
    ∧ length (ADXTREND_col adx) = length adx
    ∧ match x with
      | None => label = "Weak"
      | Some a =>
          (label = "Very Strong" ↔ (75 <= a)%Q)
          ∧ (label = "Strong" ↔ (50 <= a)%Q ∧ (a < 75)%Q)
          ∧ (label = "Changing" ↔ (25 <= a)%Q ∧ (a < 50)%Q)
          ∧ (label = "Weak" ↔ (a < 25)%Q)
      end.
Proof.
  intros Hx. change (ADXRTREND_col adx) with (ADXTREND_col adx).
  rewrite label_lookup, Hx. cbn [fmap option_fmap option_map].
  eexists. split; [reflexivity |]. split; [reflexivity |]. split.
  - unfold ADXTREND_col, loc_assign_label.
    rewrite !length_zip_with, !length_fmap. lia.
  - destruct x as [a|]; [| reflexivity]. VoteTableFacts.cell_cases.
Qed.

(** The theorem at the last of four rows, whose ADX is 80. *)
Lemma trend_label_brackets_witness :
  ∃ label,
    ADXTREND_col [Some 10%Q; Some 30%Q; None; Some 80%Q] !! 3%nat = Some label
    ∧ ADXRTREND_col [Some 10%Q; Some 30%Q; None; Some 80%Q] !! 3%nat = Some label
    ∧ length (ADXTREND_col [Some 10%Q; Some 30%Q; None; Some 80%Q]) = 4%nat
    ∧ (label = "Very Strong" ↔ (75 <= 80)%Q)
    ∧ (label = "Strong" ↔ (50 <= 80)%Q ∧ (80 < 75)%Q)
    ∧ (label = "Changing" ↔ (25 <= 80)%Q ∧ (80 < 50)%Q)
    ∧ (label = "Weak" ↔ (80 < 25)%Q).
Proof.
  apply (trend_label_brackets [Some 10%Q; Some 30%Q; None; Some 80%Q] 3
           (Some 80%Q)).
  reflexivity.
Defined.

(** *** InitSignal *)

Lemma zeros_lookup (families : list string) (m : gmap string Z) (f : string) :
  foldl (λ m f, <[f := 0]> m) m families !! f
  = if decide (f ∈ families) then Some 0 else m !! f.
Proof.
  revert m. induction families as [|g families IH]; intros m.
  - cbn [foldl]. case_decide as H; [by apply elem_of_nil in H | done].
  - cbn [foldl]. rewrite IH.
    destruct (decide (f ∈ families)) as [Hin | Hnin].
    + case_decide as H; [done | exfalso; apply H; by right].
    + destruct (decide (g = f)) as [-> | Hne].
      * rewrite lookup_insert_eq.
        case_decide as H; [done | exfalso; apply H; left].
      * rewrite lookup_insert_ne by done.
        case_decide as H; [| done].
        apply elem_of_cons in H as [-> | H]; done.
Qed.

Lemma rows_lookup (tickers : list string) (row : gmap string Z)
    (sig : gmap string (gmap string Z)) (t : string) :
  foldl (λ sigarray t, <[t := row]> sigarray) sig tickers !! t
  = if decide (t ∈ tickers) then Some row else sig !! t.
Proof.
  revert sig. induction tickers as [|u tickers IH]; intros sig.
  - cbn [foldl]. case_decide as H; [by apply elem_of_nil in H | done].
  - cbn [foldl]. rewrite IH.
    destruct (decide (t ∈ tickers)) as [Hin | Hnin].
    + case_decide as H; [done | exfalso; apply H; by right].
    + destruct (decide (u = t)) as [-> | Hne].
      * rewrite lookup_insert_eq.
        case_decide as H; [done | exfalso; apply H; left].
      * rewrite lookup_insert_ne by done.
        case_decide as H; [| done].
        apply elem_of_cons in H as [-> | H]; done.
Qed.

(** X7.  The matrix that [InitSignal] builds holds 0 at every listed
    ticker and listed family, and nothing else: a ticker outside the
    list has no row, a family outside the list has no entry in any
    row, and repeated names make no difference. *)
Theorem InitSignal_lookup (tickers families : list string) (t f : string) :
  (t ∈ tickers →
     ∃ row, InitSignal tickers families !! t = Some row
          ∧ (f ∈ families → row !! f = Some 0)
          ∧ (f ∉ families → row !! f = None))
  ∧ (t ∉ tickers → InitSignal tickers families !! t = None).
Proof.
  unfold InitSignal. rewrite rows_lookup. split.
  - intros Ht. rewrite decide_True by done.
    eexists. split; [reflexivity |].
    rewrite zeros_lookup. split; intros Hf.
    + by rewrite decide_True.
    + by rewrite decide_False.
  - intros Ht. by rewrite decide_False.
Qed.

(** *** IsEOD *)

Lemma int_of_float_le (q : Q) (m : Z) :
  0 <= m → int_of_float q <= m ↔ (q < inject_Z (m + 1))%Q.
Proof.
  intros Hm. unfold int_of_float, Qlt, inject_Z. cbn [Qnum Qden].
  rewrite Z.mul_1_r.
  destruct (Z.le_gt_cases 0 (Qnum q)) as [Hn | Hn].
  - rewrite Z.quot_div_nonneg by lia.
    split; intros H.
    + pose proof (Z.mul_succ_div_gt (Qnum q) (Z.pos (Qden q))). nia.
    + assert (Qnum q / Z.pos (Qden q) < m + 1); [| lia].
      apply Z.div_lt_upper_bound; lia.
  - split; intros _.
    + nia.
    + pose proof (Z.mul_quot_ge (Qnum q) (Z.pos (Qden q))). nia.
Qed.


Lemma div60 (delta x : Q) : (delta / 60 < x)%Q ↔ (delta < 60 * x)%Q.
Proof. unfold Qdiv. change (/ 60)%Q with (1 # 60)%Q. split; intros H; lra. Qed.

(** X8.  For a non-negative number of minutes, [IsEOD(minutes)] is
    true exactly when less than [60 * (minutes + 1)] seconds remain
    before the close, so also at every moment after the close; and a
    check that is true for some number of minutes is true for every
    larger one: when the 15-minute check of the wind-down holds, so
    does the 75-minute check of the trading loop. *)
Theorem IsEOD_threshold (minutes : Z) (delta : Q) :
  0 <= minutes →
  (IsEOD minutes delta = true ↔ (delta < inject_Z (60 * (minutes + 1)))%Q)
  ∧ (∀ later, minutes <= later → IsEOD minutes delta = true →
       IsEOD later delta = true).
Proof.
  intros Hm. split.
  - rewrite inject_Z_mult, <- div60, <- int_of_float_le by done.
    unfold IsEOD. destruct (Z.leb_spec (int_of_float (delta / 60)) minutes); split; (done || lia).
  - intros later Hl. unfold IsEOD.
    destruct (Z.leb_spec (int_of_float (delta / 60)) minutes); [| done].
    intros _. destruct (Z.leb_spec (int_of_float (delta / 60)) later); [done | lia].
Qed.

(** The theorem 4559.5 seconds before the close, checked for 75 minutes. *)
Lemma IsEOD_threshold_witness :
  (IsEOD 75 4559.5 = true ↔ (4559.5 < inject_Z (60 * (75 + 1)))%Q)
  ∧ (∀ later, 75 <= later → IsEOD 75 4559.5 = true → IsEOD later 4559.5 = true).
Proof. apply (IsEOD_threshold 75 4559.5). lia. Defined.

(** *** WaitForMinute *)

(** X9.  When the second reading of the clock is not after the
    minute boundary that follows the first, the sleep lasts between 1
    and 61 seconds and ends after that boundary, at most one second
    after it; the boundary is a whole minute. *)
Theorem WaitForMinute_same_minute (now1 now2 : Z) :
  now1 <= now2 <= roundTime now1 + minute →
  let secs := WaitForMinute now1 now2 in
  let boundary := roundTime now1 + minute in
  1 <= secs <= 61
  ∧ boundary < now2 + secs * 1000000 <= boundary + 1000000
  ∧ boundary mod minute = 0.
Proof.
  intros [H1 H2] secs boundary. subst secs boundary.
  unfold WaitForMinute, timedelta_seconds, roundTime in *. unfold minute, day in *.
  pose proof (Z.mod_pos_bound now1 60000000 ltac:(lia)) as Hm.
  set (r := now1 mod 60000000) in *.
  assert (Hw : 0 <= now1 - r + 60000000 - now2 <= 60000000) by lia.
  set (w := now1 - r + 60000000 - now2) in *.
  rewrite (Z.mod_small w) by lia.
  pose proof (Z.div_mod w 1000000 ltac:(lia)) as Hd.
  pose proof (Z.mod_pos_bound w 1000000 ltac:(lia)) as Hb.
  split_and!; try lia.
  subst r w. clear. apply Z.mod_divide; [lia |].
  exists (now1 / 60000000 + 1).
  pose proof (Z.div_mod now1 60000000 ltac:(lia)). lia.
Qed.

(** The theorem at 1 min 30.5 s, the second reading one microsecond later. *)
Lemma WaitForMinute_same_minute_witness :
  1 <= WaitForMinute 90500000 90500001 <= 61
  ∧ roundTime 90500000 + minute
    < 90500001 + WaitForMinute 90500000 90500001 * 1000000
    <= roundTime 90500000 + minute + 1000000
  ∧ (roundTime 90500000 + minute) mod minute = 0.
Proof.
  apply (WaitForMinute_same_minute 90500000 90500001). vm_compute.
  split; discriminate.
Defined.

(** X10.  When the second reading of the clock falls after the minute
    boundary, by up to one second, the difference is negative, its
    [seconds] attribute is 86399, and the sleep lasts 86400 seconds. *)
Theorem WaitForMinute_boundary_crossed (now1 now2 : Z) :
  roundTime now1 + minute < now2 <= roundTime now1 + minute + 1000000 →
  WaitForMinute now1 now2 = 86400.
Proof.
  intros H. unfold WaitForMinute, timedelta_seconds in *. unfold day.
  set (b := roundTime now1 + minute) in *.
  assert (Hw : (b - now2) mod 86400000000 = b - now2 + 86400000000).
  { symmetry. apply Z.mod_unique with (q := -1); lia. }
  rewrite Hw.
  assert (Hq : (b - now2 + 86400000000) / 1000000 = 86399); [| lia].
  symmetry. apply Z.div_unique with (r := b - now2 + 1000000); lia.
Qed.

(** The first reading one microsecond before the boundary, the second
    one microsecond after it. *)
Lemma WaitForMinute_boundary_crossed_witness :
  WaitForMinute 119999999 120000001 = 86400.
Proof.
  apply (WaitForMinute_boundary_crossed 119999999 120000001). vm_compute. split; [reflexivity | discriminate].
Defined.

(** *** GetOHLCV *)

Lemma fetch_barset_failures (n : nat) barset rest slept :
  fetch_barset (replicate n None ++ Some barset :: rest) slept
  = Some (barset, slept + 10 * Z.of_nat n).
Proof.
  revert slept. induction n as [|n IH]; intros slept; simpl.
  - f_equal. f_equal. lia.
  - rewrite IH. f_equal. f_equal. lia.
Qed.

Lemma fetch_barset_split attempts slept :
  fetch_barset attempts slept = None ∧ attempts = replicate (length attempts) None
  ∨ ∃ (n : nat) barset rest, attempts = replicate n None ++ Some barset :: rest.
Proof.
  revert slept. induction attempts as [|[b|] attempts IH]; intros slept.
  - by left.
  - right. by exists 0%nat, b, attempts.
  - destruct (IH (slept + 10)) as [[Hf Ha] | (n & b & rest & ->)].
    + left. simpl. split; [done | by f_equal].
    + right. by exists (S n), b, rest.
Qed.

Lemma convert_barset_snoc barset stock bars :
  convert_barset (barset ++ [(stock, bars)])
  = (<[stock := frame_of stock bars]> (convert_barset barset).1, Some stock).
Proof. unfold convert_barset. by rewrite foldl_app. Qed.

Lemma GetOHLCV_answered (n : nat) barset rest :
  GetOHLCV (replicate n None ++ Some barset :: rest)
  = match last barset with
    | None => UnboundLocalError (10 * Z.of_nat n)
    | Some (stock, bars) => Frame (frame_of stock bars) (10 * Z.of_nat n)
    end.
Proof.
  unfold GetOHLCV. rewrite fetch_barset_failures. rewrite Z.add_0_l.
  destruct barset as [|kv barset _] using rev_ind; [done |].
  destruct kv as [stock bars]. rewrite convert_barset_snoc, last_snoc.
  by rewrite lookup_insert_eq.
Qed.

(** X11.  After [n] failed requests and one answer, [GetOHLCV] has
    slept [10 * n] seconds and returns the frame of the last key of
    the answer, one row per bar of that key, in order, each with the
    key as its ticker; an answer with no key at all ends in
    UnboundLocalError.  As long as every request fails the function
    keeps retrying, and the lookup [raw[stock]] never fails. *)
Theorem GetOHLCV_returns_last_key :
  (∀ (n : nat) barset rest,
     GetOHLCV (replicate n None ++ Some barset :: rest)
     = match last barset with
       | None => UnboundLocalError (10 * Z.of_nat n)
       | Some (stock, bars) =>
           Frame ((λ bar, (stock, bar)) <$> bars) (10 * Z.of_nat n)
       end)
  ∧ (∀ attempts,
       GetOHLCV attempts = StillRetrying
       ↔ attempts = replicate (length attempts) None)
  ∧ (∀ attempts slept, GetOHLCV attempts ≠ RawKeyError slept).
Proof.
  split_and!.
  - apply GetOHLCV_answered.
  - intros attempts.
    destruct (fetch_barset_split attempts 0) as [[Hf Ha] | (n & b & rest & ->)].
    + unfold GetOHLCV. by rewrite Hf.
    + rewrite GetOHLCV_answered. split.
      * by destruct (last b) as [[??]|].
      * intros H. exfalso.
        assert (Hl : (replicate n None ++ Some b :: rest) !! n = Some (Some b)).
        { rewrite lookup_app_r by (rewrite length_replicate; lia).
          by rewrite length_replicate, Nat.sub_diag. }
        rewrite H in Hl. apply lookup_replicate in Hl as [? _]. done.
  - intros attempts slept.
    destruct (fetch_barset_split attempts 0) as [[Hf Ha] | (n & b & rest & ->)].
    + unfold GetOHLCV. by rewrite Hf.
    + rewrite GetOHLCV_answered. by destruct (last b) as [[??]|].
Qed.

End LibFacts.

(** ** More on the trading loop: completion, exceptions, orders and status *)

Module PassFacts.
Import Trader Scenario Conditions TraderFacts.

Lemma fgt_true (x y : Q) : fgt x y = true → (y < x)%Q.
Proof. unfold fgt. apply Qlt_bool_iff. Qed.

Lemma fgt_false (x y : Q) : fgt x y = false → (x <= y)%Q.
Proof.
  unfold fgt. intros H. apply Qnot_lt_le. intros Hlt.
  apply Qlt_bool_iff in Hlt. congruence.
Qed.








(** *** The locals of the pricing block *)

Lemma pricing_fields E a yc mra sh p fr :
  familyreturns E !! strategyfamily a = Some fr →
  pricing E a yc mra sh = Ok p →
  let clamp := bool_decide (strategyfamily a ≠ "Candlestick")
               && fgt (price a * (1 + fr))%Q (recenthigh a) in
  let sh1 := if stoploss_rule a p then 0 else sh in
  familyret p = (fr * 0.8)%Q
  ∧ floorpct p = (fr * 0.8 * 0.5)%Q
  ∧ ceilingprice p
    = (if clamp then recenthigh a - 0.05 else price a * (1 + fr))%Q
  ∧ floorprice p
    = (if fgt (price a * inject_Z sh1 * floorpct p)%Q mra
       then price a - (ceilingprice p - price a) * 0.4
       else price a * (1 - floorpct p))%Q
  ∧ traderiskamt p = ((price a - floorprice p) * inject_Z sh1)%Q
  ∧ buylimit p = ((ceilingprice p - price a) * 0.05 + price a)%Q
  ∧ traderiskpct p = ((price a - floorprice p) / price a)%Q
  ∧ traderet p = ((ceilingprice p - buylimit p) / buylimit p)%Q
  ∧ ¬ (price a == 0)%Q ∧ ¬ (buylimit p == 0)%Q ∧ ¬ (yc == 0)%Q.
Proof.
  intros Hfr H. unfold pricing, getitem in H. rewrite Hfr in H.
  cbn [mbind result_bind] in H.
  unfold stoploss_rule.
  destruct (bool_decide (strategyfamily a ≠ "Candlestick"));
    [destruct (fgt (price a * (1 + fr)) (recenthigh a));
     destruct (fgt (price a * (1 - fr * 0.8 * 0.5)) (recentlow a)) eqn:Hsl |].
  all: apply bind_Ok in H as (rp & Hrp & H); apply fdiv_inv in Hrp as [Hp0 ->].
  all: apply bind_Ok in H as (tr & Htr & H); apply fdiv_inv in Htr as [Hb0 ->].
  all: apply bind_Ok in H as (ch & Hch & H); apply fdiv_inv in Hch as [Hy0 ->].
  all: repeat match type of H with
       | context [if ?c then _ else _] => destruct c eqn:?
       end.
  all: injection H as <-.
  all: cbn [familyret floorpct ceilingprice floorprice traderiskamt buylimit
            traderiskpct traderet andb].
  all: repeat match goal with Hx : ?t = _ |- context [?t] => rewrite Hx end.
  all: split_and!; done.
Qed.
Lemma Qdiv_mul (x y : Q) : ¬ (y == 0)%Q → (x / y * y == x)%Q.
Proof. intros Hy. field. exact Hy. Qed.


Lemma plan_ratios E a yc mra sh p fr :
  familyreturns E !! strategyfamily a = Some fr →
  pricing E a yc mra sh = Ok p →
  (traderiskpct p * price a == price a - floorprice p)%Q
  ∧ (traderet p * buylimit p == ceilingprice p - buylimit p)%Q.
Proof.
  intros Hfr H.
  destruct (pricing_fields _ _ _ _ _ _ _ Hfr H)
    as (_ & _ & _ & _ & _ & _ & -> & -> & Hp0 & Hb0 & _).
  split; by apply Qdiv_mul.
Qed.

Lemma plan_ceiling E a yc mra sh p fr :
  familyreturns E !! strategyfamily a = Some fr →
  pricing E a yc mra sh = Ok p →
  (ceilingprice p <= price a * (1 + fr))%Q
  ∧ (ceilingprice p == price a * (1 + fr) ∨ ceilingprice p == recenthigh a - 0.05)%Q
  ∧ (strategyfamily a ≠ "Candlestick" → ceilingprice p <= recenthigh a)%Q.
Proof.
  intros Hfr H.
  destruct (pricing_fields _ _ _ _ _ _ _ Hfr H) as (_ & _ & -> & _).
  case_bool_decide as Hfam; cbn [andb].
  - destruct (fgt _ _) eqn:Hc.
    + apply fgt_true in Hc. split_and!; [lra | by right | intros _; lra].
    + apply fgt_false in Hc. split_and!; [lra | by left | done].
  - split_and!; [lra | by left | done].
Qed.

Lemma plan_floor E a yc mra sh p fr :
  familyreturns E !! strategyfamily a = Some fr →
  pricing E a yc mra sh = Ok p →
  (floorprice p == price a * (1 - fr * 0.8 * 0.5)
   ∨ floorprice p == price a - (ceilingprice p - price a) * 0.4)%Q.
Proof.
  intros Hfr H.
  destruct (pricing_fields _ _ _ _ _ _ _ Hfr H) as (_ & Hpct & _ & -> & _).
  rewrite Hpct. destruct (fgt _ _); [by right | by left].
Qed.





(** X16.  The floor percentage is 0.4 times the family's average
    return and the stop price is never below price * (1 - floor
    percentage), so for a positive price the fraction risked is at
    most the floor percentage.  When the ceiling is not clamped, the
    adjustment for a risk above the ceiling amount leaves the stop at
    that baseline, and unless the stop-loss rule fired the amount
    risked is price * shares * floor percentage, whatever the maximum
    risk amount is. *)
Theorem stop_not_below_baseline E a yc mra sh p fr :
  familyreturns E !! strategyfamily a = Some fr →
  pricing E a yc mra sh = Ok p →
  (floorpct p == 0.4 * fr)%Q
  ∧ (price a * (1 - floorpct p) <= floorprice p)%Q
  ∧ (0 < price a → traderiskpct p <= floorpct p)%Q
  ∧ ((ceilingprice p == price a * (1 + fr))%Q →
       (floorprice p == price a * (1 - floorpct p))%Q
       ∧ (stoploss_rule a p = false →
            traderiskamt p == price a * inject_Z sh * floorpct p)%Q).
Proof.
  intros Hfr H.
  destruct (plan_ratios _ _ _ _ _ _ _ Hfr H) as [Hrp _].
  destruct (plan_ceiling _ _ _ _ _ _ _ Hfr H) as (Hcap & _ & _).
  pose proof (plan_floor _ _ _ _ _ _ _ Hfr H) as Hfl.
  destruct (pricing_fields _ _ _ _ _ _ _ Hfr H)
    as (_ & Hpct & _ & _ & Hamt & _).
  assert (Hpct' : (floorpct p == 0.4 * fr)%Q) by (rewrite Hpct; lra).
  assert (Hlow : (price a * (1 - floorpct p) <= floorprice p)%Q).
  { rewrite Hpct. destruct Hfl as [-> | ->]; lra. }
  split_and!; try done.
  - intros Hp. nra.
  - intros Hunc.
    assert (Hbase : (floorprice p == price a * (1 - floorpct p))%Q).
    { rewrite Hpct. destruct Hfl as [-> | ->]; lra. }
    split; [done |]. intros Hsl. rewrite Hamt, Hsl, Hbase. lra.
Qed.

(** The theorem at BBB with a risk ceiling of 1, which the 50 shares
    exceed: the ceiling is not clamped, and the floor stays at 99.2. *)
Lemma stop_not_below_baseline_witness :
  let p := plan_of (pricing tables bbb 99.5 1 50) in
  (floorpct p == 0.4 * 0.02)%Q
  ∧ (price bbb * (1 - floorpct p) <= floorprice p)%Q
  ∧ (0 < price bbb → traderiskpct p <= floorpct p)%Q
  ∧ ((ceilingprice p == price bbb * (1 + 0.02))%Q →
       (floorprice p == price bbb * (1 - floorpct p))%Q
       ∧ (stoploss_rule bbb p = false →
            traderiskamt p == price bbb * inject_Z 50 * floorpct p)%Q).
Proof.
  apply (stop_not_below_baseline tables bbb 99.5 1 50
           (plan_of (pricing tables bbb 99.5 1 50)) 0.02%Q).
  - vm_compute. reflexivity.
  - vm_compute. reflexivity.
Defined.

(** *** Exceptions *)




Lemma stocks_loop_raise E n t pre stock a post s s1 e :
  stocks_loop E n t pre s = Ok s1 →
  process_stock E n (logtime t) (broker_of t stock) stock a s1 = Raise e →
  stocks_loop E n t (pre ++ (stock, a) :: post) s = Raise e.
Proof.
  revert s. induction pre as [|[st0 a0] pre IH]; intros s Hpre Hraise.
  - injection Hpre as ->. cbn [app stocks_loop]. by rewrite Hraise.
  - cbn [app stocks_loop] in *.
    apply bind_Ok in Hpre as (s0 & -> & Hpre). cbn [mbind result_bind].
    by apply IH.
Qed.

Lemma run_app E ts1 ts2 s s1 :
  run E ts1 s = Ok s1 → run E (ts1 ++ ts2) s = run E ts2 s1.
Proof.
  revert s. induction ts1 as [|t ts1 IH]; intros s H.
  - by injection H as ->.
  - cbn [app run] in *. apply bind_Ok in H as (s0 & -> & H).
    cbn [mbind result_bind]. by apply IH.
Qed.

(** X14.  Nothing catches an exception raised while a ticker is
    handled: the pass raises it, whatever tickers come after in the
    action file, and the session raises it, whatever passes would
    follow; the files are not written in that pass. *)
Theorem exception_ends_session E before t after pre stock a post s0 s s1 e :
  run E before s0 = Ok s →
  inboundactions t = pre ++ (stock, a) :: post →
  stocks_loop E (inboundcount (inboundactions t) s) t pre s = Ok s1 →
  process_stock E (inboundcount (inboundactions t) s) (logtime t)
    (broker_of t stock) stock a s1 = Raise e →
  tick E t s = Raise e ∧ run E (before ++ t :: after) s0 = Raise e.
Proof.
  intros Hrun Hinb Hpre Hraise.
  assert (Ht : tick E t s = Raise e).
  { unfold tick. rewrite Hinb at 2.
    by rewrite (stocks_loop_raise _ _ _ _ _ _ _ _ _ _ Hpre Hraise). }
  split; [done |].
  rewrite (run_app _ _ _ _ _ Hrun). cbn [run]. by rewrite Ht.
Qed.

(** The theorem at a pass over BBB, ZZZ and CCC: BBB is bought, ZZZ has
    no close, and CCC is never reached. *)
Lemma exception_ends_session_witness :
  tick tables mixed_tick start = Raise TypeError
  ∧ run tables ([] ++ mixed_tick :: [refused_tick]) start = Raise TypeError.
Proof.
  apply (exception_ends_session tables [] mixed_tick [refused_tick]
           [("BBB", bbb)] "ZZZ" aaa [("CCC", ccc)] start start
           (state_of (bbb_pass true) empty_session) TypeError).
  - reflexivity.
  - reflexivity.
  - vm_compute. reflexivity.
  - vm_compute. reflexivity.
Defined.

(** *** Status rows and the two lists *)

Lemma status_row_stamp logtime stock a mra p decision reason s r :
  status_row logtime stock a mra p decision reason s = Ok r →
  DateTime r = logtime ∧ Ticker r = stock ∧ MaxRiskAmt r = mra
  ∧ OrderShares r = ordershares p ∧ Decision r = decision.
Proof.
  unfold status_row. intros H.
  apply bind_Ok in H as (prp & _ & [= <-]). by split_and!.
Qed.

Lemma process_stock_cases E n logtime b stock a s s' :
  process_stock E n logtime b stock a s = Ok s' →
  (boughtlist s' = boughtlist s ∧ skiplist s' = skiplist s
   ∧ status s' = status s)
  ∨ (eligible stock s
     ∧ ∃ r, status s' = <[stock := r]> (status s)
          ∧ DateTime r = logtime ∧ Ticker r = stock
          ∧ MaxRiskAmt r = maxriskamt n s
          ∧ ((Decision r = "buy" ∧ 0 < OrderShares r
              ∧ boughtlist s' = boughtlist s ++ [stock]
              ∧ skiplist s' = skiplist s)
             ∨ (Decision r = "skip" ∧ 0 < OrderShares r
                ∧ boughtlist s' = boughtlist s ∧ skiplist s' = skiplist s)
             ∨ (Decision r = "skip" ∧ OrderShares r <= 0
                ∧ boughtlist s' = boughtlist s
                ∧ skiplist s' = skiplist s ++ [stock]))).
Proof.
  intros H. apply process_stock_inv in H as [-> | (Hel & Hc & p & Hp & H)];
    [by left |].
  apply place_or_skip_inv in H
    as (_ & _ & _ & _ &
        [(Hsh & _ & Hb & Hs & r & Hr & Hst)
        |[(Hsh & _ & Hb & Hs & [[_ Hst] | (r & Hr & Hst)])
        |[(Hsh & _ & Hb & Hs & _ & r & Hr & Hst)
        |(_ & _ & ->)]]]).
  - apply status_row_stamp in Hr as (? & ? & ? & Ho & ?).
    right. split; [done |]. exists r. split_and!; try done.
    left. split_and!; try done. lia.
  - by left.
  - apply status_row_stamp in Hr as (? & ? & ? & Ho & ?).
    right. split; [done |]. exists r. split_and!; try done.
    right; left. split_and!; try done. lia.
  - apply status_row_stamp in Hr as (? & ? & ? & Ho & ?).
    right. split; [done |]. exists r. split_and!; try done.
    right; right. split_and!; try done. lia.
  - by left.
Qed.

Lemma recorded_other (s s' : session) (stock x : string) (r : row) :
  x ≠ stock →
  status s' = <[stock := r]> (status s) →
  (boughtlist s' = boughtlist s ∨ boughtlist s' = boughtlist s ++ [stock]) →
  (skiplist s' = skiplist s ∨ skiplist s' = skiplist s ++ [stock]) →
  recorded s x → recorded s' x.
Proof.
  intros Hne Hst Hb Hs. unfold recorded.
  rewrite Hst, lookup_insert_ne by done.
  assert (Hb' : x ∈ boughtlist s' ↔ x ∈ boughtlist s).
  { destruct Hb as [-> | ->]; [done |].
    rewrite elem_of_app, list_elem_of_singleton. tauto. }
  assert (Hs' : x ∈ skiplist s' ↔ x ∈ skiplist s).
  { destruct Hs as [-> | ->]; [done |].
    rewrite elem_of_app, list_elem_of_singleton. tauto. }
  destruct (status s !! x) as [r0|]; rewrite Hb', Hs'; done.
Qed.

Lemma process_stock_consistent E n logtime b stock a s s' :
  process_stock E n logtime b stock a s = Ok s' →
  consistent s → consistent s'.
Proof.
  intros H (Hnb & Hns & Hrec).
  apply process_stock_cases in H
    as [(Hb & Hs & Hst) | ([Helb Hels] & r & Hst & _ & Htk & _ & Hcase)].
  { unfold consistent, recorded. rewrite Hb, Hs, Hst. done. }
  assert (Hlists :
    (boughtlist s' = boughtlist s ∨ boughtlist s' = boughtlist s ++ [stock])
    ∧ (skiplist s' = skiplist s ∨ skiplist s' = skiplist s ++ [stock])).
  { destruct Hcase as [(_ & _ & -> & ->) | [(_ & _ & -> & ->) | (_ & _ & -> & ->)]];
      split; auto. }
  destruct Hlists as [Hb Hs].
  split_and!.
  - destruct Hb as [-> | ->]; [done |].
    apply NoDup_app. split_and!; [done | | apply NoDup_singleton].
    intros y Hy ->%list_elem_of_singleton. done.
  - destruct Hs as [-> | ->]; [done |].
    apply NoDup_app. split_and!; [done | | apply NoDup_singleton].
    intros y Hy ->%list_elem_of_singleton. done.
  - intros x. destruct (decide (x = stock)) as [-> | Hne].
    + unfold recorded. rewrite Hst, lookup_insert_eq. split; [done |].
      destruct Hcase as [(Hd & Ho & -> & ->) | [(Hd & Ho & -> & ->) | (Hd & Ho & -> & ->)]].
      * left. split_and!; try done.
        rewrite elem_of_app, list_elem_of_singleton. by right.
      * right; right. by split_and!.
      * right; left. split_and!; try done.
        rewrite elem_of_app, list_elem_of_singleton. by right.
    + by eapply recorded_other.
Qed.

Lemma reachable_consistent E s : reachable E s → consistent s.
Proof.
  intros (acct0 & s0 & H0 & Hrtc).
  assert (Hc0 : consistent s0).
  { unfold session_start in H0. apply bind_Ok in H0 as (q & _ & [= <-]).
    unfold consistent, recorded. simpl. split_and!; try apply NoDup_nil_2.
    intros x. rewrite lookup_empty. split; apply not_elem_of_nil. }
  clear H0. induction Hrtc as [| x y z Hxy _ IH]; [done |].
  apply IH. destruct Hxy as [n logtime b stock a s1 s2 H | s1].
  - by eapply process_stock_consistent.
  - exact Hc0.
Qed.

(** X17.  In every state a session can reach, no ticker occurs twice
    in the bought list or twice in the skip list, and the status dict
    determines both lists: a ticker is in the bought list exactly when
    its row says "buy", and in the skip list exactly when its row has
    no shares; every row is stored under its own ticker and says "buy"
    (with at least one share) or "skip". *)
Theorem status_determines_lists E s :
  reachable E s →
  NoDup (boughtlist s) ∧ NoDup (skiplist s)
  ∧ ∀ x,
      (x ∈ boughtlist s ↔ ∃ r, status s !! x = Some r ∧ Decision r = "buy")
      ∧ (x ∈ skiplist s ↔ ∃ r, status s !! x = Some r ∧ OrderShares r <= 0)
      ∧ (∀ r, status s !! x = Some r →
           Ticker r = x
           ∧ (Decision r = "buy" ∧ 0 < OrderShares r ∨ Decision r = "skip")).
Proof.
  intros Hr. destruct (reachable_consistent E s Hr) as (Hnb & Hns & Hrec).
  split_and!; try done. intros x. specialize (Hrec x). unfold recorded in Hrec.
  destruct (status s !! x) as [r|].
  - destruct Hrec as [Htk Hcase]. split_and!.
    + split.
      * intros Hin. exists r. split; [done |].
        destruct Hcase as [(? & _) | [(_ & _ & _ & ?) | (_ & _ & ? & _)]]; done.
      * intros (r' & [= <-] & Hd).
        destruct Hcase as [(_ & _ & ? & _) | [(Hd' & _) | (Hd' & _)]];
          [done | congruence | congruence].
    + split.
      * intros Hin. exists r. split; [done |].
        destruct Hcase as [(_ & _ & _ & ?) | [(_ & ? & _) | (_ & _ & _ & ?)]]; done.
      * intros (r' & [= <-] & Ho).
        destruct Hcase as [(_ & ? & _) | [(_ & _ & ? & _) | (_ & ? & _)]];
          [lia | done | lia].
    + intros r' [= <-]. split; [done |].
      destruct Hcase as [(? & ? & _) | [(? & _) | (? & _)]]; auto.
  - destruct Hrec as [Hb Hs]. split_and!.
    + split; [done | by intros (r & ? & _)].
    + split; [done | by intros (r & ? & _)].
    + done.
Qed.

Lemma reachable_after_bbb :
  reachable tables (state_of (bbb_pass true) empty_session).
Proof.
  exists acct, start. split; [vm_compute; reflexivity |].
  eapply rtc_l; [| apply rtc_refl].
  apply (step_stock tables 1 now (held 3 true) "BBB" bbb).
  vm_compute. reflexivity.
Defined.

(** The theorem at the session in which BBB was bought. *)
Lemma status_determines_lists_witness :
  let s := state_of (bbb_pass true) empty_session in
  NoDup (boughtlist s) ∧ NoDup (skiplist s)
  ∧ ∀ x,
      (x ∈ boughtlist s ↔ ∃ r, status s !! x = Some r ∧ Decision r = "buy")
      ∧ (x ∈ skiplist s ↔ ∃ r, status s !! x = Some r ∧ OrderShares r <= 0)
      ∧ (∀ r, status s !! x = Some r →
           Ticker r = x
           ∧ (Decision r = "buy" ∧ 0 < OrderShares r ∨ Decision r = "skip")).
Proof.
  apply (status_determines_lists tables (state_of (bbb_pass true) empty_session)).
  apply reachable_after_bbb.
Defined.

(** *** One pass *)

Lemma inboundcount_from inb s k :
  foldl (λ n (kv : string * action),
           if bool_decide ((kv.1 ∉ boughtlist s) ∧ (kv.1 ∉ skiplist s))
           then n + 1 else n) k inb
  = k + Z.of_nat (length (filter (λ kv, eligible kv.1 s) inb)).
Proof.
  revert k. induction inb as [|kv inb IH]; intros k; cbn [foldl].
  - simpl. lia.
  - rewrite IH, filter_cons. unfold eligible at 2.
    case_bool_decide as Hel.
    + rewrite decide_True by done. simpl length. lia.
    + rewrite decide_False by done. lia.
Qed.

Lemma stocks_loop_stamps E n t items s s' :
  stocks_loop E n t items s = Ok s' →
  cash s' = cash s
  ∧ ∀ k r, status s' !! k = Some r →
      status s !! k = Some r
      ∨ (DateTime r = logtime t ∧ Ticker r = k
         ∧ MaxRiskAmt r = maxriskamt n s ∧ k ∈ items.*1).
Proof.
  revert s. induction items as [|[stock a] rest IH]; intros s H.
  - injection H as <-. split; [done |]. intros k r Hk. by left.
  - cbn [stocks_loop] in H. apply bind_Ok in H as (s1 & H1 & H).
    apply IH in H as (Hc & Hrows).
    pose proof (process_stock_effect _ _ _ _ _ _ _ _ H1) as (Hc1 & _).
    split; [congruence |]. intros k r Hk.
    destruct (Hrows k r Hk) as [Hold | (Hd & Htk & Hm & Hin)].
    + apply process_stock_cases in H1
        as [(_ & _ & Hst) | (_ & r1 & Hst & Hd & Htk & Hm & _)].
      * left. by rewrite <- Hst.
      * rewrite Hst in Hold.
        destruct (decide (stock = k)) as [-> | Hne].
        -- rewrite lookup_insert_eq in Hold. injection Hold as <-.
           right. split_and!; try done. rewrite fmap_cons. left.
        -- rewrite lookup_insert_ne in Hold by done. by left.
    + right. split_and!; try done.
      * rewrite Hm. unfold maxriskamt. by rewrite Hc1.
      * rewrite fmap_cons. by right.
Qed.

(** X18.  After a pass, every status row is either the row the pass
    started with or a row of a ticker of the action file, stamped with
    the log time of the pass and with the maximum risk amount fixed
    when the pass began: cash * 0.004, times 0.3 when 10 or more
    tickers of the file were in neither list at that moment.  Both
    files then hold the status dict of the session. *)
Theorem pass_stamps_rows E t s s' :
  tick E t s = Ok s' →
  let n := Z.of_nat (length (filter (λ kv, eligible kv.1 s) (inboundactions t))) in
  (∀ k r, status s' !! k = Some r →
     status s !! k = Some r
     ∨ (DateTime r = logtime t ∧ Ticker r = k
        ∧ MaxRiskAmt r
          = (cash s * 0.004 * (if 10 <=? n then 0.3 else 1))%Q
        ∧ k ∈ (inboundactions t).*1))
  ∧ buyskipfile s' = JsonDumps (StatusDict (status s'))
  ∧ statusfile s' = CsvDump fieldnames (status s').
Proof.
  intros H n. unfold tick in H. apply bind_Ok in H as (s1 & H1 & [= <-]).
  apply stocks_loop_stamps in H1 as (_ & Hrows).
  split; [| done]. cbn [write_files write_statusfile write_buyskipfile status].
  intros k r Hk. destruct (Hrows k r Hk) as [? | (Hd & Htk & Hm & Hin)];
    [by left |].
  right. split_and!; try done. rewrite Hm.
  unfold maxriskamt, inboundcount, maxriskratio, bandwagondiscount.
  rewrite inboundcount_from, Z.add_0_l. done.
Qed.

(** The theorem at the pass over BBB alone, the broker refusing. *)
Lemma pass_stamps_rows_witness :
  let s' := state_of (tick tables refused_tick start) empty_session in
  let n := Z.of_nat (length (filter (λ kv, eligible kv.1 start)
                               (inboundactions refused_tick))) in
  (∀ k r, status s' !! k = Some r →
     status start !! k = Some r
     ∨ (DateTime r = logtime refused_tick ∧ Ticker r = k
        ∧ MaxRiskAmt r
          = (cash start * 0.004 * (if 10 <=? n then 0.3 else 1))%Q
        ∧ k ∈ (inboundactions refused_tick).*1))
  ∧ buyskipfile s' = JsonDumps (StatusDict (status s'))
  ∧ statusfile s' = CsvDump fieldnames (status s').
Proof.
  apply (pass_stamps_rows tables refused_tick start
           (state_of (tick tables refused_tick start) empty_session)).
  vm_compute. reflexivity.
Defined.

End PassFacts.

(** ** The tables and the phases of the script *)

Module ScriptFacts.
Import Trader Script TraderFacts.

(** *** The two indexes *)

Lemma build_index_snoc rows kv :
  build_index (rows ++ [kv]) = <[kv.1 := kv.2]> (build_index rows).
Proof. unfold build_index. by rewrite foldl_app. Qed.

Lemma build_index_lookup (rows : list (string * Q)) (k : string) :
  build_index rows !! k = snd <$> last (filter (λ kv, kv.1 = k) rows).
Proof.
  induction rows as [|kv rows IH] using rev_ind; [done |].
  rewrite build_index_snoc, filter_app, filter_cons, filter_nil.
  destruct (decide (kv.1 = k)) as [<- | Hne].
  - by rewrite lookup_insert_eq, last_snoc.
  - rewrite lookup_insert_ne by done. by rewrite app_nil_r.
Qed.

Lemma filter_key_absent (rows : list (string * Q)) (k : string) :
  k ∉ rows.*1 → filter (λ kv, kv.1 = k) rows = [].
Proof.
  induction rows as [|kv rows IH]; [done |].
  rewrite fmap_cons, not_elem_of_cons. intros [Hne Hk].
  rewrite filter_cons, decide_False by (intros Heq; by apply Hne).
  by apply IH.
Qed.

(** X19.  The average return the loop finds for a family is the one of
    the last row of the strategies table that names the family, and
    yesterday's close of a ticker is the one of the last row of the
    query that names the ticker; a family or a ticker that no row
    names has no entry. *)
Theorem tables_hold_last_rows (strategies closes : list (string * Q))
    (k : string) :
  familyreturns (load_tables strategies closes) !! k
  = snd <$> last (filter (λ kv, kv.1 = k) strategies)
  ∧ closeprices (load_tables strategies closes) !! k
    = snd <$> last (filter (λ kv, kv.1 = k) closes)
  ∧ (k ∉ strategies.*1 →
       familyreturns (load_tables strategies closes) !! k = None)
  ∧ (k ∉ closes.*1 →
       closeprices (load_tables strategies closes) !! k = None).
Proof.
  cbn [load_tables familyreturns closeprices].
  rewrite !build_index_lookup. split_and!; try done.
  - intros Hk. by rewrite filter_key_absent.
  - intros Hk. by rewrite filter_key_absent.
Qed.

(** *** The trading loop *)

Lemma bind_assoc {A B C} (m : result A) (f : A → result B) (g : B → result C) :
  (m ≫= f) ≫= g = m ≫= (λ a, f a ≫= g).
Proof. by destruct m. Qed.

Lemma bind_ret {A} (m : result A) : m ≫= Ok = m.
Proof. by destruct m. Qed.

Lemma run_snoc E ts t s : run E (ts ++ [t]) s = run E ts s ≫= tick E t.
Proof.
  revert s. induction ts as [|t0 ts IH]; intros s; cbn [app run].
  - by rewrite bind_ret.
  - rewrite bind_assoc. destruct (tick E t0 s); [apply IH | done].
Qed.

Lemma trading_loop_test E c f passes s :
  test c = true →
  trading_loop E c f passes s = run E passes.*2 s ≫= λ s', Ok (s', Running).
Proof.
  intros Ht. revert f s. induction passes as [|[k t] rest IH]; intros f s;
    cbn [trading_loop]; rewrite Ht, orb_true_r; [done |].
  rewrite fmap_cons. cbn [run snd]. rewrite bind_assoc.
  destruct (tick E t s); [apply IH | done].
Qed.

Lemma trading_loop_good E c f goods k t rest s :
  open_now f && negb (eod f) = true →
  Forall (λ kt, good kt.1) goods →
  trading_loop E c f (goods ++ (k, t) :: rest) s
  = run E (goods.*2 ++ [t]) s
    ≫= trading_loop E c
         {| open_now := is_open k; eod := Lib.IsEOD 75 (to_close k) |} rest.
Proof.
  intros Hf Hg. revert f s Hf.
  induction Hg as [|[k0 t0] goods [Ho He] _ IH]; intros f s Hf;
    cbn [app trading_loop fmap list_fmap snd run]; rewrite Hf; cbn [orb].
  - by destruct (tick E t s).
  - rewrite bind_assoc. destruct (tick E t0 s) as [s1|e]; [| done].
    cbn [mbind result_bind]. apply IH. cbn [open_now eod fst] in *.
    by rewrite Ho, He.
Qed.

(** X20.  In test mode the trading loop never ends: it runs one pass
    per reading of the clock, as [run] does.  Otherwise it runs no
    pass when it is entered with the market closed or the end of day
    reached; when it is entered with the market open, it runs a pass
    for every reading that shows the market open more than 75 minutes
    before the close, and one more, in full, for the first reading
    that does not. *)
Theorem trading_loop_passes E c f passes s :
  (test c = true →
     trading_loop E c f passes s = run E passes.*2 s ≫= λ s', Ok (s', Running))
  ∧ (test c = false → open_now f && negb (eod f) = false →
       trading_loop E c f passes s = Ok (s, Left))
  ∧ (test c = false → open_now f && negb (eod f) = true →
       ∀ goods k t rest,
         passes = goods ++ (k, t) :: rest →
         Forall (λ kt, good kt.1) goods → ¬ good k →
         trading_loop E c f passes s
         = run E (goods.*2 ++ [t]) s ≫= λ s', Ok (s', Left)).
Proof.
  split_and!.
  - apply trading_loop_test.
  - intros Ht Hf. destruct passes as [|[k t] rest]; cbn [trading_loop];
      by rewrite Hf, Ht.
  - intros Ht Hf goods k t rest -> Hg Hk.
    rewrite trading_loop_good by done.
    assert (Hend : is_open k && negb (Lib.IsEOD 75 (to_close k)) = false).
    { unfold good in Hk. destruct (is_open k), (Lib.IsEOD 75 (to_close k)); try done.
      by destruct Hk. }
    destruct (run E (goods.*2 ++ [t]) s) as [s1|e]; [| done].
    cbn [mbind result_bind].
    destruct rest as [|[k1 t1] rest]; cbn [trading_loop open_now eod];
      by rewrite Hend, Ht.
Qed.

(** *** The end of the day *)

Lemma winddown_pass_early early w calls :
  winddown_pass (Some early) w = Some calls →
  Forall (early_call early [w]) calls.
Proof.
  intros [= <-]. apply Forall_app. split; apply Forall_fmap, Forall_forall.
  - intros o [Hsym Ho]%list_elem_of_filter. cbn.
    exists w, o. split_and!; try done. left.
  - intros x [Hx Hin]%list_elem_of_filter. cbn.
    split; [done |]. exists w. split; [left | done].
Qed.

Lemma early_call_mono early passes passes' x :
  passes ⊆ passes' → early_call early passes x → early_call early passes' x.
Proof.
  intros Hsub. destruct x as [i | sym | |]; cbn; try done.
  - intros (w & o & Hw & Ho). exists w, o. split; [by apply Hsub | done].
  - intros (Hsym & w & Hw & Hin). split; [done |]. exists w.
    split; [by apply Hsub | done].
Qed.

Lemma winddown_calls c early eod passes ok made calls :
  winddown c (Some early) eod passes ok made = Liquidated calls →
  ∃ pre, calls = made ++ pre ++ liquidate ok
       ∧ Forall (early_call early passes) pre.
Proof.
  revert eod made. induction passes as [|w rest IH]; intros eod made;
    cbn [winddown]; destruct eod.
  - intros [= <-]. by exists [].
  - done.
  - intros [= <-]. by exists [].
  - destruct (winddown_pass (Some early) w) as [cs|] eqn:Hw; [| done].
    intros H. apply IH in H as (pre & -> & Hpre).
    exists (cs ++ pre). split; [by rewrite <- !app_assoc |].
    apply Forall_app. split.
    + apply winddown_pass_early in Hw.
      eapply Forall_impl; [exact Hw |]. intros x.
      apply early_call_mono. intros y ->%list_elem_of_singleton. left.
    + eapply Forall_impl; [exact Hpre |]. intros x.
      apply early_call_mono. intros y Hy. by right.
Qed.

(** X21.  With --marketopen, or when the first 15-minute check holds,
    no wind-down pass is made and the script goes on to the
    liquidation: [cancel_all_orders], then [close_all_positions]
    unless the first call raised.  When the query for the early list
    failed, the first wind-down pass that finds an open order or a
    held position raises NameError before any call is made, and
    nothing is liquidated.  With an early list, every call before the
    liquidation cancels an order on an early-listed symbol or closes a
    position in one. *)
Theorem end_of_day_calls c earlylist first passes ok :
  (marketopen c = true ∨ Lib.IsEOD 15 first = true →
     end_of_day c earlylist first passes ok
     = Liquidated (cancel_all_orders
                     :: (if ok then [close_all_positions] else [])))
  ∧ (marketopen c = false → Lib.IsEOD 15 first = false → earlylist = None →
       ∀ w rest, passes = w :: rest →
         open_orders w ≠ [] ∨ held_symbols w ≠ [] →
         end_of_day c earlylist first passes ok = NameErrorRaised [])
  ∧ (∀ early calls,
       earlylist = Some early →
       end_of_day c earlylist first passes ok = Liquidated calls →
       ∃ pre, calls = pre ++ cancel_all_orders
                              :: (if ok then [close_all_positions] else [])
            ∧ Forall (early_call early passes) pre).
Proof.
  unfold end_of_day. split_and!.
  - intros H.
    assert (He : (if marketopen c then true else Lib.IsEOD 15 first) = true).
    { destruct H as [-> | ->]; [done | by destruct (marketopen c)]. }
    rewrite He. by destruct passes.
  - intros -> -> -> w rest -> Hw. cbn [winddown winddown_pass].
    destruct (open_orders w), (held_symbols w); try done. by destruct Hw.
  - intros early calls -> H.
    apply winddown_calls in H as (pre & -> & Hpre). by exists pre.
Qed.


(** *** Before the trading loop *)

Lemma wait_for_open_closed c n rest :
  test c = false →
  wait_for_open c false (replicate n false ++ true :: rest)
  = Some (S n, true).
Proof.
  intros Ht. induction n as [|n IH]; cbn [replicate app wait_for_open];
    rewrite Ht; cbn [negb andb].
  - by destruct rest.
  - cbn [replicate app] in IH. by rewrite IH.
Qed.

Lemma wait_for_open_waiting c n :
  test c = false → wait_for_open c false (replicate n false) = None.
Proof.
  intros Ht. induction n as [|n IH]; cbn [replicate wait_for_open];
    rewrite Ht; cbn [negb andb]; [done | by rewrite IH].
Qed.

(** X22.  With --marketopen, in test mode, or when the market is open
    at the start, the script does not wait; --marketopen sets the
    flags to open and not end-of-day whatever the clock says.
    Otherwise it sleeps once per answer of [IsOpen()] up to the first
    that says open, and enters the trading loop with the end-of-day
    flag computed at the start, which the wait does not refresh. *)
Theorem startup_flags c k :
  (marketopen c = true ∨ test c = true ∨ is_open k = true →
     ∀ answers, startup c k answers = Some (0%nat, initial_flags c k))
  ∧ (marketopen c = true →
       initial_flags c k = {| open_now := true; eod := false |})
  ∧ (marketopen c = false → test c = false → is_open k = false →
       ∀ n rest,
         startup c k (replicate n false ++ true :: rest)
         = Some (S n, {| open_now := true; eod := Lib.IsEOD 75 (to_close k) |})
         ∧ startup c k (replicate n false) = None).
Proof.
  split_and!.
  - intros H answers. unfold startup, initial_flags.
    destruct (marketopen c) eqn:Hm.
    + by destruct answers.
    + destruct H as [? | [Ht | Ho]]; [done | |]; cbn [open_now eod].
      * destruct answers; cbn [wait_for_open]; by rewrite Ht, andb_false_r.
      * rewrite Ho. by destruct answers.
  - unfold initial_flags. by intros ->.
  - intros Hm Ht Ho n rest. unfold startup, initial_flags.
    rewrite Hm. cbn [open_now eod]. rewrite Ho.
    by rewrite wait_for_open_closed, wait_for_open_waiting.
Qed.

End ScriptFacts.

(** ** calcind on a frame with its index *)

Module IndexedFacts.
Import Classifier Readings ClassifierFacts Indexed.

Section frames.
Context {label : Type} `{EqDecision label}.

Lemma rows_labelled_cons (x y : label) (l : list label) :
  rows_labelled x (y :: l)
  = ((if decide (y = x) then 1 else 0) + rows_labelled x l)%nat.
Proof.
  unfold rows_labelled. rewrite filter_cons. by destruct (decide (y = x)).
Qed.

Lemma rows_labelled_absent (x : label) (l : list label) :
  x ∉ l ↔ rows_labelled x l = 0%nat.
Proof.
  induction l as [|y l IH].
  - split; [done | intros _; apply not_elem_of_nil].
  - rewrite rows_labelled_cons, not_elem_of_cons.
    destruct (decide (y = x)) as [-> | Hne].
    + split; [by intros [? _] | lia].
    + rewrite IH. split; [by intros [_ ->] | intros Hl; split; [done | lia]].
Qed.

(** The labels are distinct exactly when each of them is borne by one row. *)
Lemma NoDup_rows_labelled (l : list label) :
  NoDup l ↔ Forall (λ x, rows_labelled x l = 1%nat) l.
Proof.
  induction l as [|y l IH]; [split; constructor |].
  rewrite NoDup_cons, Forall_cons, rows_labelled_cons, decide_True by done.
  rewrite IH, rows_labelled_absent. split.
  - intros [Hy Hl]. split; [lia |].
    eapply Forall_impl; [exact Hl |]. intros x Hx. cbn beta in Hx.
    rewrite rows_labelled_cons.
    destruct (decide (y = x)) as [-> | _]; lia.
  - intros [Hy Hl]. assert (Hy0 : rows_labelled y l = 0%nat) by lia.
    split; [done |]. apply Forall_forall. intros x Hx.
    rewrite Forall_forall in Hl. specialize (Hl x Hx).
    rewrite rows_labelled_cons in Hl.
    destruct (decide (y = x)) as [-> | _]; [| lia].
    apply rows_labelled_absent in Hy0. done.
Qed.

Lemma kept_rows (f : nat → bar → voted) (df : list (label * bar)) :
  (∀ i r, ind (f i r) = r) →
  let rows := filter (λ row : label * voted, notna (ind row.2))
                (imap (λ i row, (row.1, f i row.2)) df) in
  rows.*1 = (filter (λ row : label * bar, notna row.2) df).*1
  ∧ rows.*2 = filter (λ v, notna (ind v)) (imap f df.*2).
Proof.
  revert f. induction df as [|[x r] df IH]; intros f Hf; [done |].
  cbn zeta. rewrite fmap_cons, !imap_cons. cbn [fst snd].
  destruct (IH (f ∘ S)) as [IH1 IH2]; [intros i r'; apply Hf |].
  destruct (decide (notna r)) as [Hr | Hr].
  - rewrite !filter_cons_True by (cbn [fst snd]; by rewrite ?Hf).
    rewrite !fmap_cons. cbn [fst snd]. split; f_equal; [apply IH1 | apply IH2].
  - rewrite !filter_cons_False by (cbn [fst snd]; by rewrite ?Hf).
    split; [apply IH1 | apply IH2].
Qed.

Lemma set_strategy_id_one (index : list label) (x : label) (v : voted) :
  rows_labelled x index = 1%nat →
  set_strategy_id index (x, v)
  = Classifier.set_strategy_id v ≫= λ c, Ok (x, c).
Proof. intros Hx. unfold set_strategy_id. cbn [fst snd]. by rewrite decide_True. Qed.

Lemma set_strategy_id_series (index : list label) (x : label) (v : voted) :
  rows_labelled x index ≠ 1%nat →
  set_strategy_id index (x, v) = Raise TypeError.
Proof. intros Hx. unfold set_strategy_id. cbn [fst snd]. by rewrite decide_False. Qed.

Lemma mapM_distinct (index : list label) (rows : list (label * voted))
    (out : list classified) :
  Forall (λ row, rows_labelled row.1 index = 1%nat) rows →
  mapM Classifier.set_strategy_id rows.*2 = Ok out →
  mapM (set_strategy_id index) rows = Ok (zip rows.*1 out).
Proof.
  intros Hall. revert out.
  induction Hall as [|[x v] rows Hx _ IH]; intros out Hm.
  - cbn in Hm. by injection Hm as <-.
  - rewrite fmap_cons in Hm. cbn [mapM snd] in Hm.
    apply bind_Ok in Hm as (c & Hc & Hm).
    apply bind_Ok in Hm as (k & Hk & [= <-]).
    cbn [mapM]. cbn [fst snd] in *.
    rewrite set_strategy_id_one by done. rewrite Hc. cbn [mbind result_bind].
    rewrite (IH k Hk). done.
Qed.

Lemma mapM_repeated (index : list label) (rows : list (label * voted)) :
  Forall (λ row, ∃ c, Classifier.set_strategy_id row.2 = Ok c) rows →
  Exists (λ row, rows_labelled row.1 index ≠ 1%nat) rows →
  mapM (set_strategy_id index) rows = Raise TypeError.
Proof.
  intros Hok Hex. induction Hok as [|[x v] rows [c Hc] _ IH].
  - by apply Exists_nil in Hex.
  - cbn [mapM]. cbn [fst snd] in *.
    destruct (decide (rows_labelled x index = 1%nat)) as [Hx | Hx].
    + rewrite set_strategy_id_one by done. rewrite Hc. cbn [mbind result_bind].
      apply Exists_cons in Hex as [Hex | Hex]; [done |].
      by rewrite (IH Hex).
    + by rewrite set_strategy_id_series.
Qed.


(** X1.  On a frame given with its index, [calcind] returns [None]
    for an empty frame; it raises TypeError when two of the rows that
    [dropna] keeps bear the same index label; otherwise it returns the
    kept rows under their labels, as [Classifier.calcind] gives them
    by position, each with its subset columns defined, votes among -1,
    0, +1, a PPO vote of 0, and the identifier of its votes, which
    [decode] maps back to them. *)
Theorem calcind_repeated_label (df : list (label * bar)) :
  let kept := (filter (λ row : label * bar, notna row.2) df).*1 in
  (df = [] → calcind df = Ok None)
  ∧ (df ≠ [] → ¬ NoDup kept → calcind df = Raise TypeError)
  ∧ (df ≠ [] → NoDup kept →
       ∃ out, calcind df = Ok (Some out)
            ∧ out.*1 = kept
            ∧ Classifier.calcind df.*2 = Ok (Some out.*2)
            ∧ ∀ c, c ∈ out.*2 →
                notna (ind (votes c))
                ∧ Forall is_vote (vote_vector (votes c))
                ∧ PPOVOTE (votes c) = 0
                ∧ strategy_id (votes c) = Ok (STRATEGY_ID c)
                ∧ String.length (STRATEGY_ID c) = 11%nat
                ∧ decode (STRATEGY_ID c) = vote_vector (votes c)).
Proof.
  intros kept. split; [by intros -> |].
  destruct (calcind_returns df.*2) as (o & Hc & _ & Hrows).
  assert (∀ i r, ind (with_votes df.*2 i r) = r) as Hind by done.
  destruct (kept_rows (with_votes df.*2) df Hind) as [Hk1 Hk2].
  cbn zeta in Hk1, Hk2. fold kept in Hk1.
  set (rows := filter (λ row : label * voted, notna (ind row.2))
                 (imap (λ i row, (row.1, with_votes df.*2 i row.2)) df)) in *.
  assert (Hdf : df ≠ [] →
    calcind df = mapM (set_strategy_id rows.*1) rows ≫= λ out, Ok (Some out)).
  { by destruct df. }
  assert (Hcl : df ≠ [] → ∃ out', o = Some out'
            ∧ mapM Classifier.set_strategy_id rows.*2 = Ok out').
  { intros Hne. unfold Classifier.calcind, dropna in Hc. rewrite Hk2.
    destruct df as [|row df0]; [done |]. rewrite fmap_cons in Hc |- *.
    cbn zeta in Hc.
    destruct (mapM _ _) as [out'|e]; [| done].
    injection Hc as <-. by exists out'. }
  split.
  - intros Hne Hdup. rewrite (Hdf Hne).
    destruct (Hcl Hne) as (out' & -> & Hm).
    rewrite mapM_repeated; [done | |].
    + apply Forall_forall. intros [x v] Hin.
      assert (Hv : v ∈ rows.*2).
      { apply list_elem_of_fmap. by exists (x, v). }
      clear -Hm Hv. revert out' Hm. induction (rows.*2) as [|v0 l IH];
        intros out' Hm; [by apply elem_of_nil in Hv |].
      cbn [mapM] in Hm. apply bind_Ok in Hm as (c & Hc & Hm).
      apply bind_Ok in Hm as (k & Hk & _).
      apply elem_of_cons in Hv as [-> | Hv]; [by exists c | by eapply IH].
    + rewrite NoDup_rows_labelled, <- Hk1 in Hdup.
      apply not_Forall_Exists in Hdup; [| intros x; apply _].
      apply Exists_exists in Hdup as (x & Hx & Hcount).
      apply list_elem_of_fmap in Hx as ([x' v] & -> & Hin).
      apply Exists_exists. by exists (x', v).
  - intros Hne Hnd. rewrite (Hdf Hne).
    destruct (Hcl Hne) as (out' & -> & Hm).
    rewrite (mapM_distinct rows.*1 rows out'); [| | done].
    + cbn [mbind result_bind]. eexists. split; [done |].
      assert (Hlen : length rows.*1 = length out').
      { rewrite !length_fmap. clear -Hm. rewrite <- (length_fmap snd rows).
        revert out' Hm. induction (rows.*2) as [|v l IH]; intros out' Hm.
        - by injection Hm as <-.
        - cbn [mapM] in Hm. apply bind_Ok in Hm as (c & _ & Hm).
          apply bind_Ok in Hm as (k & Hk & [= <-]). cbn. f_equal. by apply IH. }
      rewrite fst_zip, snd_zip by lia.
      split_and!; [done | done |].
      intros c Hin. by apply (Hrows out').
    + rewrite NoDup_rows_labelled, <- Hk1 in Hnd.
      apply Forall_forall. intros [x v] Hin.
      rewrite Forall_forall in Hnd. apply Hnd.
      apply list_elem_of_fmap. by exists (x, v).
Qed.

End frames.

(** The theorem at a frame labelled 0, 1, 1 and at one labelled 0, 1, 2. *)
Lemma calcind_repeated_label_witness :
  calcind repeated_label = Raise TypeError
  ∧ ∃ out, calcind range_index = Ok (Some out) ∧ out.*1 = [0; 1; 2].
Proof.
  split.
  - refine (proj1 (proj2 (calcind_repeated_label repeated_label)) _ _);
      [done |].
    vm_compute. intros H.
    apply NoDup_cons in H as [_ H]. apply NoDup_cons in H as [H _].
    apply H. left.
  - assert (Hnd : NoDup (filter (λ row : Z * bar, notna row.2) range_index).*1).
    { vm_compute. repeat (apply NoDup_cons; split;
        [intros Hin;
         repeat (apply elem_of_cons in Hin as [Hin | Hin]; [discriminate |]);
         by apply elem_of_nil in Hin |]).
      apply NoDup_nil_2. }
    destruct (proj2 (proj2 (calcind_repeated_label range_index))
                ltac:(done) Hnd) as (out & Hout & Hlab & _).
    exists out. split; [done |]. rewrite Hlab. vm_compute. reflexivity.
Defined.

End IndexedFacts.

(** ** The loop body with the conversion checked *)

Module CheckedFacts.
Import Trader Scenario Conditions TraderFacts PassFacts.




Lemma process_stock_returns E n logtime b stock a s s' :
  Checked.process_stock E n logtime b stock a s = Ok s' →
  Trader.process_stock E n logtime b stock a s = Ok s'.
Proof.
  unfold Checked.process_stock, Trader.process_stock.
  case_bool_decide; [| done].
  destruct (float_get _ _) as [yc|e]; [| done]. cbn [mbind result_bind].
  unfold fdiv. destruct (Qeq_bool (price a) 0); [done |].
  cbn [mbind result_bind]. unfold Checked.int_of_quotient.
  by destruct (_ || _).
Qed.










End CheckedFacts.
